(* ===== verification/_CoqProject ===== *)
-Q . S2P
Prelude.v
Completion.v
Tokenizer.v
Engine.v
World.v
Magic.v
Pipeline.v
Orchestrator.v
