(* ===== verification/Prelude.v ===== *)
(** * A verification development of xeus-sqlite's request dispatcher

    The program is the Jupyter kernel [xeus_sqlite::interpreter] of
    [src/src/xeus_sqlite_interpreter.cpp].  One C++ object keeps the whole
    session (fields [m_db], [m_backup_db], [m_bd_is_loaded], [m_db_path]);
    every notebook cell goes through [execute_request_impl], which
    tokenises the cell, runs a "magic" command ([parse_SQLite_magic]) or a
    SQL statement ([process_SQLite_input]) and, for [%XVEGA_PLOT], both
    followed by a chart.  [complete_request_impl] proposes SQL keywords.

    ** Files and what they model

    - [Prelude] (this file): the outcome types of the development (engine
      results [outcome], and [exec] for C++ code, which returns, throws a
      [std::runtime_error] carrying the state reached at the throw, or runs
      into undefined behaviour), the state-and-exception monad [M] with its
      notation in [xs_scope], the string helpers of the source
      ([startswith], [is_identifier], [std::string::find] as [str_find]) and
      the hint database [xs].
    - [Tokenizer]: the helpers the interpreter calls from
      [xvega-bindings] ([sanitize_string], [tokenizer], [is_magic],
      [is_xvega], [split_xv_sqlite_input], [case_insentive_equals]).  Their
      code is not in this repository: they are modelled from the
      specification (section 4.1 and 4.2) and marked so in the manifest.
    - [Completion]: [complete_request_impl] with its 147 keywords.
    - [Engine]: the interfaces of the collaborators, as type classes:
      [SQLiteCpp] (the SQLiteCpp database and statement API the source
      calls) and [Renderers] ([tabulate::Table::str] and
      [xv_bindings::process_xvega_input]); a small executable instance of
      each, used by the witnesses.
    - [World]: the interpreter's fields as the record [interp], the world
      it acts on (files, engine state, published messages) and the
      primitive effects ([publish_execution_result], null and range checks).
    - [Magic]: [load_db], [create_db], [delete_db], [table_exists],
      [is_unencrypted], [get_header_info], [backup], [parse_SQLite_magic].
    - [Pipeline]: [process_SQLite_input], the single pass over a result set
      that builds the text table, the HTML table and the data frame.
    - [Orchestrator]: [execute_request_impl], the reachable sessions and the
      invariants that hold over every sequence of requests.

    ** What the theorems show

    - Completion: the fragment and [cursor_start] are what the backward
      scan finds, and the matches are exactly the keywords that the
      fragment is a prefix of, in list order.
    - Tokenizer: tokens are non-empty and blank-free outside quotes;
      classification of magic and chart commands.
    - Magic: each command's behaviour on every branch of the code, the
      errors included; the mode that [load_db] picks; the commands that
      need a loaded database; the effect on files.
    - Pipeline: the three outputs hold the same rows and columns; the frame
      column of each distinct column name is its cells in row order after
      a leading ["name"] entry; no output is published when the engine
      fails; statements without columns are executed.
    - Orchestrator: error envelopes and tracebacks; a failing magic stops
      the request; invariants of the session kept by every request.

    The divergences between the code and the specification that these
    theorems exhibit are listed as findings in the manifest.

    ** What is not modelled

    The SQLite engine itself, the tabulate renderer and the chart builder
    are parameters (the [Engine] interfaces).  Writes to [std::cout] are
    debugging output and are left out.  The Emscripten-only helpers
    ([fetch], [em_init_idbfs], [ems_sync_db]) are modelled as the events
    they emit.  Files are a set of existing paths: an [std::ofstream] on a
    path creates it, [std::remove] deletes it. *)

From Stdlib Require Export String Ascii ZArith.
From stdpp Require Export base gmap strings list.

Declare Scope xs_scope.
Delimit Scope xs_scope with xs.

(** ** Results of collaborators and of C++ code *)

(** A call into a library that reports failure by throwing
    [SQLite::Exception] (a [std::runtime_error]). *)
Inductive outcome (A : Type) : Type :=
| Ok (a : A)
| Err (msg : string).
Arguments Ok {A} a.
Arguments Err {A} msg.

(** A C++ computation on a state [S]: it returns, throws a
    [std::runtime_error] (side effects done before the throw are kept), or
    reaches undefined behaviour. *)
Inductive exec (S A : Type) : Type :=
| Ret (a : A) (s : S)
| Exc (msg : string) (s : S)
| UB (what : string).
Arguments Ret {S A} a s.
Arguments Exc {S A} msg s.
Arguments UB {S A} what.

Definition M (S A : Type) : Type := S -> exec S A.

Section Monad.
Context {S : Type}.

Definition ret {A} (a : A) : M S A := fun s => Ret a s.

Definition bind {A B} (m : M S A) (k : A -> M S B) : M S B :=
  fun s => match m s with
           | Ret a s' => k a s'
           | Exc e s' => Exc e s'
           | UB w => UB w
           end.

Definition throw {A} (msg : string) : M S A := fun s => Exc msg s.
Definition undefined {A} (what : string) : M S A := fun _ => UB what.
Definition get_st : M S S := fun s => Ret s s.
Definition put_st (s' : S) : M S unit := fun _ => Ret tt s'.
Definition modify_st (f : S -> S) : M S unit := fun s => Ret tt (f s).

(** A library call that may throw. *)
Definition lift {A} (o : outcome A) : M S A :=
  match o with Ok a => ret a | Err e => throw e end.

(** [try { m } catch (const std::runtime_error& err) { h(err.what()) }] *)
Definition try_catch {A} (m : M S A) (h : string -> M S A) : M S A :=
  fun s => match m s with
           | Exc e s' => h e s'
           | r => r
           end.

(** [v[i]] on a [std::vector]: undefined out of range. *)
Definition at_ {A} (v : list A) (i : nat) : M S A :=
  match v !! i with
  | Some x => ret x
  | None => undefined "std::vector::operator[] out of range"
  end.
End Monad.

Notation "x <- m ;; k" := (bind m (fun x => k))
  (at level 100, m at next level, k at level 200, right associativity) : xs_scope.
Notation "m ;; k" := (bind m (fun _ => k))
  (at level 100, k at level 200, right associativity) : xs_scope.
Notation "v '.[' i ']'" := (at_ v i) (at level 1, format "v .[ i ]") : xs_scope.

Open Scope xs_scope.

(** ** Strings *)

Open Scope string_scope.

(** [startswith(str, cmp)]: [str.compare(0, cmp.length(), cmp) == 0]. *)
Definition startswith (str cmp : string) : bool := String.prefix cmp str.

Definition is_alpha (c : ascii) : bool :=
  let n := nat_of_ascii c in (((65 <=? n) && (n <=? 90)) || ((97 <=? n) && (n <=? 122)))%nat.

Definition is_digit (c : ascii) : bool :=
  let n := nat_of_ascii c in ((48 <=? n) && (n <=? 57))%nat.

(** [is_identifier(c)]: [std::isalpha(c) || std::isdigit(c) || c == '_'],
    in the "C" locale. *)
Definition is_identifier (c : ascii) : bool :=
  is_alpha c || is_digit c || Ascii.eqb c "_"%char.

(** [str.find(sub) != std::string::npos]. *)
Definition str_find (sub str : string) : option nat := String.index 0 sub str.

Definition str_contains (sub str : string) : bool :=
  match str_find sub str with Some _ => true | None => false end.

(** ** Automation *)

Create HintDb xs discriminated.
Create Rewrite HintDb xs_rw.

Ltac xs_unfold :=
  unfold bind, ret, throw, undefined, get_st, put_st, modify_st, lift, try_catch, at_ in *.

(** ** Shared lemmas *)

Lemma prefix_spec (p s : string) :
  String.prefix p s = true <-> exists r, s = p ++ r.
Proof.
  revert s; induction p as [|c p IH]; intros [|d s]; simpl.
  - split; [intros _; by exists EmptyString | done].
  - split; [intros _; by exists (String d s) | done].
  - split; [done | intros [r Hr]; discriminate].
  - destruct (ascii_dec c d) as [->|Hne].
    + rewrite IH. split; intros [r Hr]; exists r; [by rewrite Hr | by injection Hr].
    + split; [done | intros [r Hr]; injection Hr; congruence].
Qed.

Lemma startswith_app (p r : string) : startswith (p ++ r) p = true.
Proof. apply prefix_spec. by exists r. Qed.

Lemma index_0_prefix (sub s : string) :
  String.prefix sub s = true -> String.index 0 sub s = Some 0.
Proof. destruct sub, s; simpl; intros H; rewrite ?H; done. Qed.

Lemma str_find_app (sub r : string) : str_find sub (sub ++ r) = Some 0.
Proof. apply index_0_prefix, prefix_spec. by exists r. Qed.

Lemma bind_ret_l {S A B} (a : A) (k : A -> M S B) s : bind (ret a) k s = k a s.
Proof. done. Qed.

Lemma bind_throw {S A B} (e : string) (k : A -> M S B) s : bind (throw e) k s = Exc e s.
Proof. done. Qed.

Lemma bind_undefined {S A B} (w : string) (k : A -> M S B) s :
  bind (undefined w) k s = UB w.
Proof. done. Qed.

Lemma at_lookup {S A} (v : list A) i x (s : S) : v !! i = Some x -> at_ v i s = Ret x s.
Proof. unfold at_. by intros ->. Qed.

Lemma at_out {S A} (v : list A) i (s : S) :
  length v <= i -> at_ v i s = UB "std::vector::operator[] out of range".
Proof. unfold at_. intros H. by rewrite (lookup_ge_None_2 v i H). Qed.

#[export] Hint Rewrite @bind_ret_l @bind_throw @bind_undefined : xs_rw.
#[export] Hint Resolve startswith_app str_find_app : xs.

(** Strings as lists of characters: [s[i]], [s.size()] and [s.substr]. *)
Abbreviation chars := list_ascii_of_string.

Lemma get_chars (s : string) (i : nat) : String.get i s = chars s !! i.
Proof. revert i; induction s as [|c s IH]; intros [|i]; simpl; auto. Qed.

Lemma length_chars (s : string) : String.length s = length (chars s).
Proof. induction s; simpl; auto. Qed.

Lemma substring_chars (n m : nat) (s : string) :
  chars (substring n m s) = take m (drop n (chars s)).
Proof.
  revert n m; induction s as [|c s IH]; intros [|n] [|m]; simpl; rewrite ?IH, ?drop_0; auto.
Qed.

Lemma chars_inj (s1 s2 : string) : chars s1 = chars s2 -> s1 = s2.
Proof.
  intros H. rewrite <- (string_of_list_ascii_of_string s1), <- (string_of_list_ascii_of_string s2).
  by rewrite H.
Qed.

Lemma chars_app (s1 s2 : string) : chars (s1 ++ s2) = (chars s1 ++ chars s2)%list.
Proof. induction s1; simpl; f_equal; auto. Qed.

#[export] Hint Rewrite get_chars length_chars substring_chars chars_app : xs_rw.

(** A string that contains [a ++ b] contains [a]. *)
Lemma str_contains_app_l (a b s : string) :
  a <> EmptyString -> str_contains (a ++ b) s = true -> str_contains a s = true.
Proof.
  unfold str_contains, str_find. intros Ha.
  destruct (String.index 0 (a ++ b) s) as [n|] eqn:Hn; [|done]. intros _.
  apply String.index_correct1 in Hn.
  destruct (String.index 0 a s) eqn:Hm; [done|]. exfalso.
  apply (String.index_correct3 0 n a s Hm Ha (Nat.le_0_l n)).
  apply chars_inj. apply (f_equal chars) in Hn.
  rewrite substring_chars, length_chars, chars_app, length_app in Hn.
  rewrite substring_chars, length_chars.
  replace (take (length (chars a)) (drop n (chars s))) with
    (take (length (chars a)) (take (length (chars a) + length (chars b)) (drop n (chars s))))
    by (rewrite take_take; f_equal; lia).
  rewrite Hn. apply take_app_length.
Qed.

(** A loop whose body may throw: [for (x : l) acc = f(acc, x);]. *)
Fixpoint fold_outcome {A B} (f : A -> B -> outcome A) (l : list B) (acc : A) : outcome A :=
  match l with
  | [] => Ok acc
  | x :: l' => match f acc x with Ok a => fold_outcome f l' a | Err m => Err m end
  end.

(** The newline character. *)
Definition nl : string := String (ascii_of_nat 10) EmptyString.

(** Concatenation of a list of strings, and the laws of [String.append]. *)
Definition strcat (l : list string) : string := foldr String.append EmptyString l.

Lemma string_app_assoc (a b c : string) : ((a ++ b) ++ c)%string = (a ++ (b ++ c))%string.
Proof.
  induction a as [|x a IH]; [done|].
  change (String x ((a ++ b) ++ c) = String x (a ++ (b ++ c)))%string. by rewrite IH.
Qed.

Lemma string_app_nil_r (a : string) : (a ++ EmptyString)%string = a.
Proof.
  induction a as [|x a IH]; [done|].
  change (String x (a ++ EmptyString) = String x a)%string. by rewrite IH.
Qed.

Lemma strcat_app (l1 l2 : list string) :
  strcat (l1 ++ l2) = (strcat l1 ++ strcat l2)%string.
Proof. induction l1; simpl; [done|]. by rewrite IHl1, string_app_assoc. Qed.

#[export] Hint Rewrite string_app_assoc string_app_nil_r strcat_app : xs_rw.
