(* ===== verification/Completion.v ===== *)
(** * Keyword completion: [interpreter::complete_request_impl]

    The completion request cuts the cell at the cursor, scans backwards
    for the last character that cannot belong to an identifier, and
    returns every keyword of a fixed table that starts with the identifier
    fragment found, in table order.  This file holds the table, the scan,
    the match loop and their specification. *)

From S2P Require Import Prelude.
From stdpp Require Import sorting.
Open Scope string_scope.

Module Completion.

(** [static const std::array<std::string,147> keywords]. *)
Definition keywords : list string := [
  "ABORT"; "ACTION"; "ADD"; "AFTER"; "ALL"; "ALTER"; "ALWAYS"; "ANALYZE";
  "AND"; "AS"; "ASC"; "ATTACH"; "AUTOINCREMENT"; "BEFORE"; "BEGIN";
  "BETWEEN"; "BY"; "CASCADE"; "CASE"; "CAST"; "CHECK"; "COLLATE"; "COLUMN";
  "COMMIT"; "CONFLICT"; "CONSTRAINT"; "CREATE"; "CROSS"; "CURRENT";
  "CURRENT_DATE"; "CURRENT_TIME"; "CURRENT_TIMESTAMP"; "DATABASE";
  "DEFAULT"; "DEFERRABLE"; "DEFERRED"; "DELETE"; "DESC"; "DETACH";
  "DISTINCT"; "DO"; "DROP"; "EACH"; "ELSE"; "END"; "ESCAPE"; "EXCEPT";
  "EXCLUDE"; "EXCLUSIVE"; "EXISTS"; "EXPLAIN"; "FAIL"; "FILTER"; "FIRST";
  "FOLLOWING"; "FOR"; "FOREIGN"; "FROM"; "FULL"; "GENERATED"; "GLOB";
  "GROUP"; "GROUPS"; "HAVING"; "IF"; "IGNORE"; "IMMEDIATE"; "IN"; "INDEX";
  "INDEXED"; "INITIALLY"; "INNER"; "INSERT"; "INSTEAD"; "INTERSECT";
  "INTO"; "IS"; "ISNULL"; "JOIN"; "KEY"; "LAST"; "LEFT"; "LIKE"; "LIMIT";
  "MATCH"; "MATERIALIZED"; "NATURAL"; "NO"; "NOT"; "NOTHING"; "NOTNULL";
  "NULL"; "NULLS"; "OF"; "OFFSET"; "ON"; "OR"; "ORDER"; "OTHERS"; "OUTER";
  "OVER"; "PARTITION"; "PLAN"; "PRAGMA"; "PRECEDING"; "PRIMARY"; "QUERY";
  "RAISE"; "RANGE"; "RECURSIVE"; "REFERENCES"; "REGEXP"; "REINDEX";
  "RELEASE"; "RENAME"; "REPLACE"; "RESTRICT"; "RETURNING"; "RIGHT";
  "ROLLBACK"; "ROW"; "ROWS"; "SAVEPOINT"; "SELECT"; "SET"; "TABLE"; "TEMP";
  "TEMPORARY"; "THEN"; "TIES"; "TO"; "TRANSACTION"; "TRIGGER"; "UNBOUNDED";
  "UNION"; "UNIQUE"; "UPDATE"; "USING"; "VACUUM"; "VALUES"; "VIEW";
  "VIRTUAL"; "WHEN"; "WHERE"; "WINDOW"; "WITH"; "WITHOUT"
].

(** [raw_code.substr(0, cursor_pos)]: the [int] cursor is converted to
  [size_t], so a negative cursor keeps the whole cell, and [substr]
  clamps a count past the end. *)
Definition code_prefix (raw_code : string) (cursor_pos : Z) : string :=
if (cursor_pos <? 0)%Z then raw_code else substring 0 (Z.to_nat cursor_pos) raw_code.

(** [for (int i = code.size()-1; i >= 0; --i) if (!is_identifier(code[i]))
  { pos = i; break; }] starting from [pos = -1]: [scan_back code n]
  examines the indices [n-1], ..., [0]. *)
Fixpoint scan_back (code : string) (n : nat) : Z :=
match n with
| O => (-1)%Z
| S i =>
    match String.get i code with
    | Some c => if is_identifier c then scan_back code i else Z.of_nat i
    | None => scan_back code i
    end
end.

(** [for (auto kw : keywords) if (startswith(kw, to_match)) matches.push_back(kw);] *)
Definition match_keywords (to_match : string) : list string :=
fold_left (fun acc kw => if startswith kw to_match then (acc ++ [kw])%list else acc)
  keywords [].

(** The reply of [complete_request_impl]. *)
Record completion := {
c_status : string;
c_cursor_start : Z;
c_cursor_end : Z;
c_matches : list string
}.

Definition complete_request_impl (raw_code : string) (cursor_pos : Z) : completion :=
let code := code_prefix raw_code cursor_pos in
let pos := scan_back code (String.length code) in
let to_match :=
  if (pos =? -1)%Z then code
  else substring (Z.to_nat (pos + 1)) (String.length code - Z.to_nat (pos + 1)) code in
{| c_status := "ok";
   c_cursor_start := if (pos =? -1)%Z then 0%Z else (pos + 1)%Z;
   c_cursor_end := cursor_pos;
   c_matches := match_keywords to_match |}.

(** ** The match loop is a filter *)

Lemma fold_match_filter (t : string) (l acc : list string) :
fold_left (fun acc kw => if startswith kw t then (acc ++ [kw])%list else acc) l acc
= (acc ++ List.filter (fun kw => startswith kw t) l)%list.
Proof.
revert acc; induction l as [|kw l IH]; intros acc; simpl.
- by rewrite app_nil_r.
- destruct (startswith kw t); rewrite IH; [by rewrite <- app_assoc | done].
Qed.

Lemma match_keywords_filter (t : string) :
match_keywords t = List.filter (fun kw => startswith kw t) keywords.
Proof. unfold match_keywords. by rewrite fold_match_filter. Qed.

(** ** The backward scan *)

Definition ident_chars (l : list ascii) : Prop := Forall (fun c => is_identifier c = true) l.

Lemma scan_back_spec (code : string) (n : nat) :
n <= length (chars code) ->
(scan_back code n = (-1)%Z /\ ident_chars (take n (chars code))) \/
(exists p c, scan_back code n = Z.of_nat p /\ p < n /\ chars code !! p = Some c /\
   is_identifier c = false /\ ident_chars (take (n - S p) (drop (S p) (chars code)))).
Proof.
unfold ident_chars.
induction n as [|i IH]; intros Hn; simpl.
- left. split; [done | by rewrite take_0].
- rewrite get_chars.
  destruct (chars code !! i) as [c|] eqn:Hc;
    [| apply lookup_ge_None_1 in Hc; lia].
  rewrite (take_S_r _ _ c Hc), Forall_app.
  destruct (is_identifier c) eqn:Hid.
  + destruct (IH ltac:(lia)) as [[-> Hall] | (p & d & -> & Hp & Hd & Hnd & Hall)].
    * left. split; [done | split; [done | by constructor]].
    * right. exists p, d. repeat split; [lia | done | done |].
      replace (i - p) with (S (i - S p)) by lia.
      rewrite (take_S_r _ _ c); [| rewrite lookup_drop; by replace (S p + (i - S p)) with i by lia].
      apply Forall_app. split; [done | by constructor].
  + right. exists i, c. repeat split; [lia | done | done |].
    replace (i - i) with 0 by lia. by rewrite take_0.
Qed.

(** ** Specification of a completion request *)

(** The backward scan splits the cell at the last character that cannot
  be part of an identifier. *)
Lemma complete_request_split (raw_code : string) (cursor_pos : Z) :
let code := code_prefix raw_code cursor_pos in
let r := complete_request_impl raw_code cursor_pos in
exists before frag : list ascii,
  chars code = (before ++ frag)%list /\
  ident_chars frag /\
  (before = [] \/ exists b c, before = (b ++ [c])%list /\ is_identifier c = false) /\
  c_cursor_start r = Z.of_nat (length before) /\
  c_cursor_end r = cursor_pos /\
  c_matches r = List.filter (fun kw => startswith kw (string_of_list_ascii frag)) keywords.
Proof.
intros code r. subst r. unfold complete_request_impl; cbn [c_cursor_start c_cursor_end c_matches].
fold code. rewrite match_keywords_filter, length_chars.
destruct (scan_back_spec code (length (chars code)) (le_n _))
  as [[-> Hall] | (p & c & -> & Hp & Hc & Hnc & Hall)].
- exists [], (chars code). rewrite take_ge in Hall by lia.
  repeat split; auto. by rewrite string_of_list_ascii_of_string.
- assert (Hz : (Z.of_nat p =? -1)%Z = false) by lia. rewrite Hz.
  replace (Z.to_nat (Z.of_nat p + 1)) with (S p) by lia.
  rewrite take_ge in Hall by (rewrite length_drop; lia).
  exists (take (S p) (chars code)), (drop (S p) (chars code)).
  repeat split.
  + by rewrite take_drop.
  + done.
  + right. exists (take p (chars code)), c. split; [by apply take_S_r | done].
  + rewrite length_take. f_equal; lia.
  + f_equal. f_equal. apply chars_inj.
    rewrite substring_chars, list_ascii_of_string_of_list_ascii.
    apply take_ge. rewrite length_drop. lia.
Qed.

(** C7: the reply splits the cell before the cursor into a prefix that is
  empty or ends with a non-identifier character, and a fragment of
  identifier characters; [cursor_start] is the length of the prefix,
  [cursor_end] the cursor, and the matches are exactly the keywords that
  start with the fragment, in table order. *)
Theorem complete_request_spec (raw_code : string) (cursor_pos : Z) :
let code := code_prefix raw_code cursor_pos in
let r := complete_request_impl raw_code cursor_pos in
exists before frag : list ascii,
  chars code = (before ++ frag)%list /\
  ident_chars frag /\
  (before = [] \/ exists b c, before = (b ++ [c])%list /\ is_identifier c = false) /\
  c_cursor_start r = Z.of_nat (length before) /\
  c_cursor_end r = cursor_pos /\
  c_matches r = List.filter (fun kw => startswith kw (string_of_list_ascii frag)) keywords.
Proof. apply complete_request_split. Qed.

Lemma StronglySorted_filter {A} (R : A -> A -> Prop) (f : A -> bool) (l : list A) :
StronglySorted R l -> StronglySorted R (List.filter f l).
Proof.
induction 1 as [|x l _ IH Hx]; simpl; [constructor|].
destruct (f x); [|done]. constructor; [done|].
apply Forall_forall. intros y Hy.
apply list_elem_of_In, filter_In in Hy as [Hy _].
eapply Forall_forall; [exact Hx|]. by apply list_elem_of_In.
Qed.

(** The table is in strictly increasing byte order. *)
Lemma keywords_sorted : StronglySorted (fun a b => String.ltb a b = true) keywords.
Proof. apply (bool_decide_unpack _). vm_compute. reflexivity. Qed.

(** C24: the matches come out in strictly increasing alphabetical order
  (so without duplicates), because the table itself is sorted; the
  specification says the list is unsorted and the order is not
  alphabetical. *)
Theorem complete_matches_sorted (raw_code : string) (cursor_pos : Z) :
StronglySorted (fun a b => String.ltb a b = true)
  (c_matches (complete_request_impl raw_code cursor_pos)).
Proof.
unfold complete_request_impl; cbn [c_matches]. rewrite match_keywords_filter.
apply StronglySorted_filter, keywords_sorted.
Qed.

(** C25: with a cursor that is not negative, [0 <= cursor_start <=
  cursor_end]: the replaced range is well formed. *)
Theorem complete_cursor_bounds (raw_code : string) (cursor_pos : Z) :
(0 <= cursor_pos)%Z ->
(0 <= c_cursor_start (complete_request_impl raw_code cursor_pos)
   <= c_cursor_end (complete_request_impl raw_code cursor_pos))%Z.
Proof.
intros Hpos.
destruct (complete_request_split raw_code cursor_pos) as (before & frag & Hsplit & _ & _ & -> & -> & _).
assert (Hlen : length before <= String.length (code_prefix raw_code cursor_pos)).
{ rewrite length_chars, Hsplit, length_app. lia. }
unfold code_prefix in Hlen. destruct (Z.ltb_spec cursor_pos 0); [lia|].
rewrite length_chars, substring_chars, length_take in Hlen. lia.
Qed.

Lemma complete_cursor_bounds_witness :
(0 <= 19)%Z /\
(0 <= c_cursor_start (complete_request_impl "SELECT * FROM t WHE" 19)
   <= c_cursor_end (complete_request_impl "SELECT * FROM t WHE" 19))%Z.
Proof. split; [lia | apply complete_cursor_bounds; lia]. Defined.



End Completion.
