(* ===== verification/Tokenizer.v ===== *)
(** * Input helpers of [xvega-bindings] called by the interpreter

    [execute_request_impl] calls [xv_bindings::sanitize_string],
    [xv_bindings::tokenizer], [xv_bindings::is_magic],
    [xv_bindings::is_xvega], [xv_sqlite::split_xv_sqlite_input] and
    [xv_bindings::case_insentive_equals].  Their code lives in the
    xvega-bindings library, not in this repository, so they are modelled
    from the specification (sections 4.1 and 4.2): blanks are normalised
    to one space and other control characters dropped; tokens are the
    maximal runs of non-blank characters, a quoted part (between two
    equal quote characters) being kept whole; a magic line starts with
    [%]; the chart command is [XVEGA_PLOT]; the chart options and the SQL
    text are separated by the first [<>] token. *)

From S2P Require Import Prelude.
Open Scope string_scope.

Module Tokenizer.

Definition is_blank (c : ascii) : bool :=
match nat_of_ascii c with 9 | 10 | 11 | 12 | 13 | 32 => true | _ => false end.

Definition is_control (c : ascii) : bool := (nat_of_ascii c <? 32)%nat || (nat_of_ascii c =? 127)%nat.

Definition space : ascii := " "%char.

(** [sanitize_string]: every run of blanks becomes one space, other control
  characters are removed.  [after_space] says that the last character
  written is a space. *)
Fixpoint sanitize_from (after_space : bool) (s : string) : string :=
match s with
| EmptyString => EmptyString
| String c s' =>
    if is_blank c then
      if after_space then sanitize_from true s' else String space (sanitize_from true s')
    else if is_control c then sanitize_from after_space s'
    else String c (sanitize_from false s')
end.

Definition sanitize_string (code : string) : string := sanitize_from false code.

Definition is_quote (c : ascii) : bool :=
(nat_of_ascii c =? 34)%nat || (nat_of_ascii c =? 39)%nat.

(** The tokenizer's scan: [q] is the quote character of an open quoted
  part, [cur] the current token (reversed). *)
Fixpoint split_tokens (q : option ascii) (cur : list ascii) (l : list ascii) : list (list ascii) :=
match l with
| [] => match cur with [] => [] | _ => [rev cur] end
| c :: l' =>
    match q with
    | Some qc => split_tokens (if Ascii.eqb c qc then None else q) (c :: cur) l'
    | None =>
        if is_blank c then
          match cur with
          | [] => split_tokens None [] l'
          | _ => rev cur :: split_tokens None [] l'
          end
        else split_tokens (if is_quote c then Some c else None) (c :: cur) l'
    end
end.

Definition tokenizer (input : string) : list string :=
map string_of_list_ascii (split_tokens None [] (chars input)).

(** [is_magic]: the first token starts with the sigil [%]; an empty line is
  not magic. *)
Definition is_magic (tokens : list string) : bool :=
match tokens with
| String c _ :: _ => Ascii.eqb c "%"%char
| _ => false
end.

Definition ascii_upper (c : ascii) : ascii :=
let n := nat_of_ascii c in
if ((97 <=? n) && (n <=? 122))%nat then ascii_of_nat (n - 32) else c.

Definition upper (s : string) : string := string_of_list_ascii (map ascii_upper (chars s)).

(** [case_insentive_equals(a, b)]: equal after mapping ASCII letters to
  upper case. *)
Definition case_insentive_equals (a b : string) : bool := String.eqb (upper a) (upper b).

(** [is_xvega]: the first token is the chart command. *)
Definition is_xvega (tokens : list string) : bool :=
match tokens with
| t :: _ => case_insentive_equals t "XVEGA_PLOT"
| [] => false
end.

(** [split_xv_sqlite_input]: chart options before the first [<>] token,
  SQL tokens after it; without a separator every token is a chart
  option. *)
Fixpoint split_xv_sqlite_input (tokens : list string) : list string * list string :=
match tokens with
| [] => ([], [])
| t :: ts =>
    if String.eqb t "<>" then ([], ts)
    else let '(xv, sq) := split_xv_sqlite_input ts in (t :: xv, sq)
end.

End Tokenizer.
