(* ===== verification/Engine.v ===== *)
(** * The collaborators of the interpreter, as interfaces

    The interpreter calls three libraries it does not implement:
    SQLiteCpp (a C++ wrapper of the SQLite engine: [SQLite::Database],
    [SQLite::Statement]), tabulate ([tabulate::Table::str]) and the chart
    builder of xvega-bindings ([xv_bindings::process_xvega_input]).  Each
    is a type class here: the interpreter's definitions and theorems are
    stated for every instance, and [ToyEngine] and [ToyRenderers] are
    small executable instances on which the witnesses run.

    A statement is what the interpreter observes when it walks a result
    set: its column names, then a sequence of [executeStep] results (a row
    of cells as text, the end of the result with the engine state the
    statement leaves, or a thrown [SQLite::Exception]). *)

From S2P Require Import Prelude.
Open Scope string_scope.

(** The [SQLite::OPEN_*] flag combinations the source passes. *)
Inductive open_mode := OPEN_READONLY | OPEN_READWRITE | OPEN_READWRITE_CREATE.

#[export] Instance open_mode_eq_dec : EqDecision open_mode.
Proof. solve_decision. Defined.

(** Successive results of [query.executeStep()]. *)
Inductive stepping (E : Type) : Type :=
| SDone (e : E)
| SRow (cells : list string) (rest : stepping E)
| SFail (msg : string).
Arguments SDone {E} e.
Arguments SRow {E} cells rest.
Arguments SFail {E} msg.

Record statement (E : Type) := {
  st_columns : list string;
  st_run : stepping E
}.
Arguments st_columns {E} s.
Arguments st_run {E} s.

(** [SQLite::Header], as filled in by [SQLite::Database::getHeaderInfo]. *)
Record Header := {
  headerStr : list ascii;
  pageSizeBytes : N;
  fileFormatWriteVersion : N;
  fileFormatReadVersion : N;
  reservedSpaceBytes : N;
  maxEmbeddedPayloadFrac : N;
  minEmbeddedPayloadFrac : N;
  leafPayloadFrac : N;
  fileChangeCounter : N;
  databaseSizePages : N;
  firstFreelistTrunkPage : N;
  totalFreelistPages : N;
  schemaCookie : N;
  schemaFormatNumber : N;
  defaultPageCacheSizeBytes : N;
  largestBTreePageNumber : N;
  databaseTextEncoding : N;
  userVersion : N;
  incrementalVaccumMode : N;
  applicationId : N;
  versionValidFor : N;
  sqliteVersion : N
}.

(** The SQLiteCpp calls of the source.  [estate] is the engine's own
    state (the databases), [handle] a [SQLite::Database] object; the set
    of existing files is passed where the engine reads the file system. *)
Class SQLiteCpp := {
  estate : Type;
  handle : Type;
  db_open : estate -> gset string -> string -> open_mode -> outcome (handle * estate);
  prepare : estate -> handle -> string -> outcome (statement estate);
  tableExists : estate -> handle -> string -> outcome bool;
  loadExtension : estate -> handle -> string -> string -> outcome estate;
  db_key : estate -> handle -> string -> outcome estate;
  db_rekey : estate -> handle -> string -> outcome estate;
  isUnencrypted : estate -> gset string -> string -> outcome bool;
  getHeaderInfo : estate -> gset string -> string -> outcome Header;
  db_backup : estate -> handle -> string -> Z -> outcome estate
}.

(** [xv::df_type]: column name to the column's cells. *)
Abbreviation df_type := (gmap string (list string)).

Class Renderers := {
  table_str : list (list string) -> string;
  chart_json : Type;
  process_xvega_input : list string -> df_type -> outcome chart_json
}.

(** A statement whose every row has one cell per column and which ends
    without error: the engine's side of the contract the pipeline relies
    on. *)
Fixpoint rows_of {E} (r : stepping E) : list (list string) :=
  match r with
  | SDone _ => []
  | SRow cells rest => cells :: rows_of rest
  | SFail _ => []
  end.

Fixpoint run_end {E} (r : stepping E) : outcome E :=
  match r with
  | SDone e => Ok e
  | SRow _ rest => run_end rest
  | SFail m => Err m
  end.

(** ** An executable instance *)

(** Handles remember the path and the mode; the state holds, per path,
    the tables and the answers to the statements the witnesses run;
    [t_locked] holds the paths the engine cannot open (a directory, a file
    without permission). *)
Module ToyEngine.

Record tstate := {
  t_tables : gmap string (gset string);
  t_answers : gmap string (statement unit);
  t_locked : gset string
}.

Record thandle := { h_path : string; h_mode : open_mode }.

Definition to_state (s : tstate) (st : statement unit) : statement tstate :=
  {| st_columns := st_columns st;
     st_run := (fix go (r : stepping unit) : stepping tstate :=
                  match r with
                  | SDone _ => SDone s
                  | SRow c rest => SRow c (go rest)
                  | SFail m => SFail m
                  end) (st_run st) |}.

#[export] Instance toy_sqlite : SQLiteCpp := {
  estate := tstate;
  handle := thandle;
  db_open s files path mode :=
    if bool_decide (path ∈ t_locked s) then Err "unable to open database file"
    else if bool_decide (path = ":memory:") || bool_decide (path ∈ files)
    then Ok ({| h_path := path; h_mode := mode |}, s)
    else Err "unable to open database file";
  prepare s h sql :=
    match t_answers s !! sql with
    | Some st => Ok (to_state s st)
    | None => Err "syntax error"
    end;
  tableExists s h name :=
    Ok (bool_decide (name ∈ default ∅ (t_tables s !! h_path h)));
  loadExtension s _ _ _ := Err "not authorized";
  db_key s _ _ := Ok s;
  db_rekey s _ _ := Ok s;
  isUnencrypted s files path :=
    if bool_decide (path ∈ files) then Ok true else Err "unable to open database file";
  getHeaderInfo s files path := Err "unable to open database file";
  db_backup s _ _ _ := Ok s
}.

#[export] Instance toy_renderers : Renderers := {
  table_str rows := String.concat "|" (map (String.concat ",") rows);
  chart_json := list string;
  process_xvega_input opts df := Ok opts
}.

End ToyEngine.
