(* ===== verification/World.v ===== *)
(** * The interpreter's state and the world it acts on

    [interp] is the state of the C++ object [xeus_sqlite::interpreter]:
    the [std::unique_ptr<SQLite::Database>] fields [m_db] and
    [m_backup_db] ([None] is a null pointer), the flag [m_bd_is_loaded]
    and the path [m_db_path].  A [world] adds what the code reads and
    changes outside the object: the existing files, the engine's state and
    the messages published to the client, in order.  Computations on a
    world are the monad [K] of [Prelude.M]. *)

From S2P Require Import Prelude Engine.
Open Scope string_scope.

Section World.
Context `{SQLiteCpp} `{Renderers}.

Record interp := {
  m_db : option handle;
  m_backup_db : option handle;
  m_bd_is_loaded : bool;
  m_db_path : string
}.

(** The fields as the constructor [interpreter::interpreter()] leaves
    them (null pointers, not loaded, empty path). *)
Definition interp0 : interp :=
  {| m_db := None; m_backup_db := None; m_bd_is_loaded := false; m_db_path := EmptyString |}.

(** The [nl::json] bundles the code publishes. *)
Inductive pubdata :=
| MimeBundle (m : gmap string string)
| ChartJson (c : chart_json).

Inductive message :=
| ExecuteResult (counter : Z) (data : pubdata)
| ExecuteError (ename evalue : string) (traceback : list string)
| StreamOut (name text : string)
| FetchStarted (url filename : string)
| IdbfsSync.

Record world := {
  w_interp : interp;
  w_files : gset string;
  w_engine : estate;
  w_out : list message
}.

Definition K (A : Type) : Type := M world A.

Definition with_interp (w : world) (i : interp) : world :=
  {| w_interp := i; w_files := w_files w; w_engine := w_engine w; w_out := w_out w |}.

Definition upd_interp (f : interp -> interp) : K unit :=
  modify_st (fun w => with_interp w (f (w_interp w))).

Definition set_db (h : handle) : K unit :=
  upd_interp (fun i => {| m_db := Some h; m_backup_db := m_backup_db i;
                          m_bd_is_loaded := m_bd_is_loaded i; m_db_path := m_db_path i |}).

Definition set_loaded (b : bool) : K unit :=
  upd_interp (fun i => {| m_db := m_db i; m_backup_db := m_backup_db i;
                          m_bd_is_loaded := b; m_db_path := m_db_path i |}).

Definition set_path (p : string) : K unit :=
  upd_interp (fun i => {| m_db := m_db i; m_backup_db := m_backup_db i;
                          m_bd_is_loaded := m_bd_is_loaded i; m_db_path := p |}).

Definition set_files (f : gset string -> gset string) : K unit :=
  modify_st (fun w => {| w_interp := w_interp w; w_files := f (w_files w);
                         w_engine := w_engine w; w_out := w_out w |}).

Definition set_engine (e : estate) : K unit :=
  modify_st (fun w => {| w_interp := w_interp w; w_files := w_files w;
                         w_engine := e; w_out := w_out w |}).

Definition emit (m : message) : K unit :=
  modify_st (fun w => {| w_interp := w_interp w; w_files := w_files w;
                         w_engine := w_engine w; w_out := w_out w ++ [m] |}).

Definition publish_execution_result (counter : Z) (data : pubdata) : K unit :=
  emit (ExecuteResult counter data).

Definition publish_execution_error (ename evalue : string) (tb : list string) : K unit :=
  emit (ExecuteError ename evalue tb).

(** [*m_db], [m_db->f(...)]: undefined on a null pointer. *)
Definition deref_db : K handle :=
  w <- get_st ;;
  match m_db (w_interp w) with
  | Some h => ret h
  | None => undefined "null SQLite::Database dereferenced"
  end.

Definition deref_backup_db : K handle :=
  w <- get_st ;;
  match m_backup_db (w_interp w) with
  | Some h => ret h
  | None => undefined "null SQLite::Database dereferenced"
  end.

(** A SQLiteCpp call that reads the engine state, and one that changes it. *)
Definition engine_call {A} (f : estate -> outcome A) : K A :=
  w <- get_st ;; lift (f (w_engine w)).

Definition engine_update (f : estate -> outcome estate) : K unit :=
  e <- engine_call f ;; set_engine e.

(** [std::ofstream(path).close()]: creates (or truncates) the file. *)
Definition ofstream_create (path : string) : K unit := set_files (fun fs => {[path]} ∪ fs).

(** [std::ifstream(path).is_open()]. *)
Definition ifstream_is_open (path : string) : K bool :=
  w <- get_st ;; ret (bool_decide (path ∈ w_files w)).

(** [std::remove(path)]: [0] on success, the file is gone. *)
Definition std_remove (path : string) : K bool :=
  w <- get_st ;;
  if bool_decide (path ∈ w_files w)
  then set_files (fun fs => fs ∖ {[path]}) ;; ret true
  else ret false.
End World.


(** ** Invariants of computations on the world

    [hoare P m Q]: started in a world satisfying [P], [m] stops (by a
    return or by an exception) in a world satisfying [Q].  Undefined
    behaviour is not a state the program reaches. *)
Section Hoare.
Context `{SQLiteCpp} `{Renderers}.

Definition hoare {A} (P : world -> Prop) (m : K A) (Q : world -> Prop) : Prop :=
  forall w, P w -> match m w with
                   | Ret _ w' | Exc _ w' => Q w'
                   | UB _ => True
                   end.

Lemma hoare_ret {A} P (a : A) : hoare P (ret a) P.
Proof. by intros w Hw. Qed.

Lemma hoare_throw {A} P msg : hoare P (throw (A:=A) msg) P.
Proof. by intros w Hw. Qed.

Lemma hoare_undefined {A} P Q what : hoare P (undefined (A:=A) what) Q.
Proof. by intros w Hw. Qed.

Lemma hoare_weaken {A} P P' (m : K A) Q Q' :
  (forall w, P' w -> P w) -> hoare P m Q -> (forall w, Q w -> Q' w) -> hoare P' m Q'.
Proof.
  intros HP Hm HQ w Hw. specialize (Hm w (HP w Hw)). destruct (m w); auto.
Qed.

Lemma hoare_bind {A B} P R Q (m : K A) (k : A -> K B) :
  hoare P m R -> (forall a, hoare R (k a) Q) -> (forall w, R w -> Q w) ->
  hoare P (bind m k) Q.
Proof.
  intros Hm Hk HRQ w Hw. unfold bind. specialize (Hm w Hw).
  destruct (m w) as [a w'|e w'|]; auto. by apply Hk.
Qed.

(** The invariant form: the same predicate before, between and after. *)
Lemma hoare_bind_inv {A B} P (m : K A) (k : A -> K B) :
  hoare P m P -> (forall a, hoare P (k a) P) -> hoare P (bind m k) P.
Proof. intros. by eapply hoare_bind. Qed.

Lemma hoare_if {A} P Q (b : bool) (m1 m2 : K A) :
  hoare P m1 Q -> hoare P m2 Q -> hoare P (if b then m1 else m2) Q.
Proof. by destruct b. Qed.

Lemma hoare_get_st P : hoare P get_st P.
Proof. by intros w Hw. Qed.

Lemma hoare_modify P Q (f : world -> world) :
  (forall w, P w -> Q (f w)) -> hoare P (modify_st f) Q.
Proof. intros Hf w Hw. by apply Hf. Qed.

Lemma hoare_lift {A} P (o : outcome A) : hoare P (lift o) P.
Proof. destruct o; [apply hoare_ret | apply hoare_throw]. Qed.

Lemma hoare_at {A} P (v : list A) i : hoare P (v.[i]) P.
Proof. unfold at_. destruct (v !! i); [apply hoare_ret | apply hoare_undefined]. Qed.

(** A property of the interpreter's fields only. *)
Definition on_interp (I : interp -> Prop) (w : world) : Prop := I (w_interp w).

Lemma hoare_set_files I f : hoare (on_interp I) (set_files f) (on_interp I).
Proof. by apply hoare_modify. Qed.

Lemma hoare_set_engine I e : hoare (on_interp I) (set_engine e) (on_interp I).
Proof. by apply hoare_modify. Qed.

Lemma hoare_emit I msg : hoare (on_interp I) (emit msg) (on_interp I).
Proof. by apply hoare_modify. Qed.

Lemma hoare_deref_db P : hoare P deref_db P.
Proof.
  apply hoare_bind_inv; [apply hoare_get_st|]. intros w.
  destruct (m_db (w_interp w)); [apply hoare_ret | apply hoare_undefined].
Qed.

Lemma hoare_deref_backup_db P : hoare P deref_backup_db P.
Proof.
  apply hoare_bind_inv; [apply hoare_get_st|]. intros w.
  destruct (m_backup_db (w_interp w)); [apply hoare_ret | apply hoare_undefined].
Qed.

Lemma hoare_engine_call {A} P (f : estate -> outcome A) : hoare P (engine_call f) P.
Proof. apply hoare_bind_inv; [apply hoare_get_st | intros; apply hoare_lift]. Qed.

Lemma hoare_engine_update I f : hoare (on_interp I) (engine_update f) (on_interp I).
Proof. apply hoare_bind_inv; [apply hoare_engine_call | intros; apply hoare_set_engine]. Qed.

Lemma hoare_ofstream_create I p : hoare (on_interp I) (ofstream_create p) (on_interp I).
Proof. apply hoare_set_files. Qed.

Lemma hoare_ifstream_is_open P p : hoare P (ifstream_is_open p) P.
Proof. apply hoare_bind_inv; [apply hoare_get_st | intros; apply hoare_ret]. Qed.

Lemma hoare_std_remove I p : hoare (on_interp I) (std_remove p) (on_interp I).
Proof.
  apply hoare_bind_inv; [apply hoare_get_st|]. intros w. apply hoare_if.
  - apply hoare_bind_inv; [apply hoare_set_files | intros; apply hoare_ret].
  - apply hoare_ret.
Qed.

Lemma hoare_publish_execution_result I c d :
  hoare (on_interp I) (publish_execution_result c d) (on_interp I).
Proof. apply hoare_emit. Qed.

Lemma hoare_publish_execution_error I a b c :
  hoare (on_interp I) (publish_execution_error a b c) (on_interp I).
Proof. apply hoare_emit. Qed.
End Hoare.

#[export] Hint Resolve hoare_ret hoare_throw hoare_undefined hoare_get_st hoare_lift hoare_at
  hoare_set_files hoare_set_engine hoare_emit hoare_deref_db hoare_deref_backup_db
  hoare_engine_call hoare_engine_update hoare_ofstream_create hoare_ifstream_is_open
  hoare_std_remove hoare_publish_execution_result hoare_publish_execution_error : xs.

(** Proves [hoare P m P] for a composite [m] by following its binds and
    branches, closing the primitive steps with the [xs] hints. *)
Ltac hoare_inv :=
  repeat match goal with
         | |- hoare _ _ _ => solve [eauto with xs]
         | |- hoare _ (bind _ _) _ => apply hoare_bind_inv; [|intros ?]
         | |- hoare _ (if _ then _ else _) _ => apply hoare_if
         | |- hoare _ (match ?x with _ => _ end) _ => destruct x
         end.

Section HoareCatch.
Context `{SQLiteCpp} `{Renderers}.

Lemma hoare_try_catch {A} P Q (m : K A) (h : string -> K A) :
  hoare P m Q -> (forall e, hoare Q (h e) Q) -> hoare P (try_catch m h) Q.
Proof.
  intros Hm Hh w Hw. unfold try_catch. specialize (Hm w Hw).
  destruct (m w) as [a w'|e w'|]; auto. by apply Hh.
Qed.
End HoareCatch.

(** ** Concrete worlds of the executable engine, for the witnesses *)
Module ToyWorld.
Import ToyEngine.

Definition engine0 : tstate := {| t_tables := ∅; t_answers := ∅; t_locked := ∅ |}.

(** A freshly constructed interpreter next to the files [files]. *)
Definition world0 (files : gset string) (e : tstate) : world :=
  {| w_interp := interp0; w_files := files; w_engine := e; w_out := [] |}.

(** A session that opened [path] in [mode]. *)
Definition open_world (path : string) (mode : open_mode) (files : gset string) (e : tstate)
    : world :=
  {| w_interp := {| m_db := Some {| h_path := path; h_mode := mode |}; m_backup_db := None;
                    m_bd_is_loaded := true; m_db_path := path |};
     w_files := files; w_engine := e; w_out := [] |}.
End ToyWorld.
