(* ===== verification/Magic.v ===== *)
(** * Magic commands: [interpreter::parse_SQLite_magic] and its helpers

    A magic line is [%COMMAND arg ...]; after the [%] is removed the
    tokens reach [parse_SQLite_magic], which compares the first token
    case-insensitively with the command names.  [LOAD], [CREATE], [SYNC],
    [FETCH] and [TEST] run whatever the session; every other command
    needs [m_bd_is_loaded], and an unknown command with a loaded database
    does nothing.  This file models the dispatcher and the member
    functions it calls ([load_db], [create_db], [delete_db],
    [table_exists], [is_unencrypted], [get_header_info], [backup]), and
    proves what each command does on every branch. *)

From Stdlib Require Import DecimalString.
From S2P Require Import Prelude Engine World Tokenizer.
Import Tokenizer.
Open Scope string_scope.

Module Magic.
Section Magic.
Context `{SQLiteCpp} `{Renderers}.

(** The sentinel path of an in-memory database. *)
Definition memory_path : string := ":memory:".

(** [tokenized_input.back()]: undefined on an empty vector. *)
Definition vec_back (v : list string) : K string :=
  match last v with
  | Some x => ret x
  | None => undefined "std::vector::back on an empty vector"
  end.

(** [m_db = std::make_unique<SQLite::Database>(m_db_path, mode)]: the
    constructor runs first and the pointer changes only if it returns. *)
Definition open_db (mode : open_mode) : K unit :=
  w <- get_st ;;
  he <- lift (db_open (w_engine w) (w_files w) (m_db_path (w_interp w)) mode) ;;
  set_engine he.2 ;; set_db he.1.

(** [load_db]: the mode is read from the last token. *)
Definition load_db (tokenized_input : list string) : K unit :=
  last_tok <- vec_back tokenized_input ;;
  if str_contains "rw" last_tok then set_loaded true ;; open_db OPEN_READWRITE
  else if str_contains "r" last_tok then set_loaded true ;; open_db OPEN_READONLY
  else if (length tokenized_input <? 4)%nat then set_loaded true ;; open_db OPEN_READWRITE
  else throw "Wasn't able to load the database correctly.".

(** [create_db]: the path is the third token. *)
Definition create_db (tokenized_input : list string) : K unit :=
  set_loaded true ;;
  path <- tokenized_input.[2] ;;
  set_path path ;;
  (if bool_decide (path = memory_path) then ret tt else ofstream_create path) ;;
  open_db OPEN_READWRITE_CREATE.

Definition delete_db : K unit :=
  w <- get_st ;;
  let path := m_db_path (w_interp w) in
  if bool_decide (path = memory_path) then ret tt
  else removed <- std_remove path ;;
     if removed then ret tt else throw "Error deleting file.".

Definition text_plain (msg : string) : gmap string string := {[ "text/plain" := msg ]}.

Definition table_exists (table_name : string) : K (gmap string string) :=
  h <- deref_db ;;
  b <- engine_call (fun e => tableExists e h table_name) ;;
  if b then ret (text_plain ("The table " ++ table_name ++ " exists."))
  else ret (text_plain ("The table " ++ table_name ++ " doesn't exist.")).

Definition is_unencrypted : K (gmap string string) :=
  w <- get_st ;;
  b <- lift (isUnencrypted (w_engine w) (w_files w) (m_db_path (w_interp w))) ;;
  if b then ret (text_plain "The database is unencrypted.")
  else ret (text_plain "The database is encrypted.").

(** [std::to_string] of an unsigned field. *)
Definition to_string (n : N) : string := NilEmpty.string_of_uint (N.to_uint n).


Definition header_text (h : Header) : string :=
  "Magic header string: " ++ string_of_list_ascii (take 15 (headerStr h)) ++ nl ++
  "Page size bytes: " ++ to_string (pageSizeBytes h) ++ nl ++
  "File format write version: " ++ to_string (fileFormatWriteVersion h) ++ nl ++
  "File format read version: " ++ to_string (fileFormatReadVersion h) ++ nl ++
  "Reserved space bytes: " ++ to_string (reservedSpaceBytes h) ++ nl ++
  "Max embedded payload fraction " ++ to_string (maxEmbeddedPayloadFrac h) ++ nl ++
  "Min embedded payload fraction: " ++ to_string (minEmbeddedPayloadFrac h) ++ nl ++
  "Leaf payload fraction: " ++ to_string (leafPayloadFrac h) ++ nl ++
  "File change counter: " ++ to_string (fileChangeCounter h) ++ nl ++
  "Database size pages: " ++ to_string (databaseSizePages h) ++ nl ++
  "First freelist trunk page: " ++ to_string (firstFreelistTrunkPage h) ++ nl ++
  "Total freelist trunk pages: " ++ to_string (totalFreelistPages h) ++ nl ++
  "Schema cookie: " ++ to_string (schemaCookie h) ++ nl ++
  "Schema format number: " ++ to_string (schemaFormatNumber h) ++ nl ++
  "Default page cache size bytes: " ++ to_string (defaultPageCacheSizeBytes h) ++ nl ++
  "Largest B tree page number: " ++ to_string (largestBTreePageNumber h) ++ nl ++
  "Database text encoding: " ++ to_string (databaseTextEncoding h) ++ nl ++
  "User version: " ++ to_string (userVersion h) ++ nl ++
  "Incremental vaccum mode: " ++ to_string (incrementalVaccumMode h) ++ nl ++
  "Application ID: " ++ to_string (applicationId h) ++ nl ++
  "Version valid for: " ++ to_string (versionValidFor h) ++ nl ++
  "SQLite version: " ++ to_string (sqliteVersion h) ++ nl.

Definition get_header_info : K (gmap string string) :=
  w <- get_st ;;
  h <- lift (getHeaderInfo (w_engine w) (w_files w) (m_db_path (w_interp w))) ;;
  ret (text_plain (header_text h)).

(** [(int)c] for a [char], which is signed: bytes from 128 up are
    negative. *)
Definition char_to_int (c : ascii) : Z :=
  let n := Z.of_nat (nat_of_ascii c) in if (n <? 128)%Z then n else (n - 256)%Z.

(** [backup_type[0]]: on an empty [std::string] this is the terminating
    NUL character. *)
Definition first_char (s : string) : ascii :=
  match s with String c _ => c | EmptyString => ascii_of_nat 0 end.

Definition backup (backup_type : string) : K unit :=
  if ((1 <? String.length backup_type)%nat && (char_to_int (first_char backup_type) <=? 1)%Z)
  then throw "This is not a valid backup type."
  else h <- deref_backup_db ;;
     w <- get_st ;;
     engine_update (fun e => db_backup e h (m_db_path (w_interp w))
                               (char_to_int (first_char backup_type))).

(** [fetch(url, filename)] of the Emscripten build: it reports the
    download on stdout and starts an asynchronous fetch. *)
Definition fetch (url filename : string) : K unit :=
  emit (StreamOut "stdout" ("fetching: url: " ++ url ++ " to " ++ filename ++ nl)) ;;
  emit (FetchStarted url filename).

(** [attr.onsuccess] of [fetch], run by the event loop once the download
    is done: it publishes the size on stdout, then calls
    [emscripten_fetch_close(fetch)], which frees the fetch, and only then
    reads [fetch->userData] and [fetch->data]. *)
Definition fetch_onsuccess (url : string) (numBytes : N) : K unit :=
  emit (StreamOut "stdout"
  ("Finished downloading " ++ to_string numBytes ++ " bytes from URL " ++ url ++ nl)) ;;
  undefined "emscripten_fetch_t used after emscripten_fetch_close".

Definition ems_sync_db : K unit := emit IdbfsSync.

Definition test_file : string := "/home/web_user/xeus_sqlite/testit.txt".

Definition cmd_is (cmd name : string) : bool := case_insentive_equals cmd name.

(** The commands that need a loaded database. *)
Definition loaded_command (execution_counter : Z) (tokenized_input : list string)
    (cmd : string) : K unit :=
  if cmd_is cmd "DELETE" then delete_db
  else if cmd_is cmd "TABLE_EXISTS" then
    name <- tokenized_input.[1] ;;
    d <- table_exists name ;;
    publish_execution_result execution_counter (MimeBundle d)
  else if cmd_is cmd "LOAD_EXTENSION" then
    h <- deref_db ;;
    ext <- tokenized_input.[1] ;;
    entry <- tokenized_input.[2] ;;
    engine_update (fun e => loadExtension e h ext entry)
  else if cmd_is cmd "SET_KEY" then
    h <- deref_db ;;
    k <- tokenized_input.[1] ;;
    engine_update (fun e => db_key e h k)
  else if cmd_is cmd "REKEY" then
    h <- deref_db ;;
    k <- tokenized_input.[1] ;;
    engine_update (fun e => db_rekey e h k)
  else if cmd_is cmd "IS_UNENCRYPTED" then
    d <- is_unencrypted ;;
    publish_execution_result execution_counter (MimeBundle d)
  else if cmd_is cmd "GET_INFO" then
    d <- get_header_info ;;
    publish_execution_result execution_counter (MimeBundle d)
  else if cmd_is cmd "BACKUP" then
    t <- tokenized_input.[1] ;;
    backup t
  else ret tt.

Definition parse_SQLite_magic (execution_counter : Z) (tokenized_input : list string) : K unit :=
  cmd <- tokenized_input.[0] ;;
  if cmd_is cmd "LOAD" then
    path <- tokenized_input.[1] ;;
    set_path path ;;
    exists_ <- ifstream_is_open path ;;
    if bool_decide (path <> memory_path) && negb exists_
    then throw "The path doesn't exist."
    else load_db tokenized_input
  else if cmd_is cmd "CREATE" then create_db tokenized_input
  else if cmd_is cmd "SYNC" then ems_sync_db
  else if cmd_is cmd "FETCH" then
    url <- tokenized_input.[1] ;;
    filename <- tokenized_input.[2] ;;
    fetch url filename
  else if cmd_is cmd "TEST" then ofstream_create test_file
  else
    w <- get_st ;;
    if m_bd_is_loaded (w_interp w) then loaded_command execution_counter tokenized_input cmd
    else throw "Load a database to run this command.".

(** ** Invariants of the session fields *)

(** [m_backup_db] is never assigned, and [m_db] is only set once
    [m_bd_is_loaded] is. *)
Definition session_inv (i : interp) : Prop :=
  m_backup_db i = None /\ (is_Some (m_db i) -> m_bd_is_loaded i = true).

Definition loaded_inv (i : interp) : Prop :=
  m_backup_db i = None /\ m_bd_is_loaded i = true.

Lemma loaded_session w : on_interp loaded_inv w -> on_interp session_inv w.
Proof. intros [Hb Hl]. split; auto. Qed.

Lemma hoare_set_loaded_true :
  hoare (on_interp session_inv) (set_loaded true) (on_interp loaded_inv).
Proof. apply hoare_modify. intros w [Hb _]. split; auto. Qed.

Lemma hoare_set_path I p :
  (forall i, I i -> I {| m_db := m_db i; m_backup_db := m_backup_db i;
                         m_bd_is_loaded := m_bd_is_loaded i; m_db_path := p |}) ->
  hoare (on_interp I) (set_path p) (on_interp I).
Proof. intros HI. apply hoare_modify. intros w Hw. by apply HI. Qed.

Lemma hoare_open_db mode : hoare (on_interp loaded_inv) (open_db mode) (on_interp loaded_inv).
Proof.
  unfold open_db. hoare_inv.
  apply hoare_modify. intros w [Hb Hl]. split; auto.
Qed.

(** [set_loaded true] followed by opening keeps the session invariant. *)
Lemma hoare_load_then_open mode :
  hoare (on_interp session_inv) (set_loaded true ;; open_db mode) (on_interp session_inv).
Proof.
  eapply hoare_bind; [apply hoare_set_loaded_true | | apply loaded_session].
  intros _. eapply hoare_weaken; [| apply hoare_open_db |]; auto using loaded_session.
Qed.

#[local] Hint Resolve hoare_load_then_open : xs.

Lemma hoare_load_db toks :
  hoare (on_interp session_inv) (load_db toks) (on_interp session_inv).
Proof.
  unfold load_db, vec_back. destruct (last toks); [|apply hoare_undefined]. hoare_inv.
Qed.

Lemma hoare_create_db toks :
  hoare (on_interp session_inv) (create_db toks) (on_interp session_inv).
Proof.
  unfold create_db.
  eapply hoare_bind; [apply hoare_set_loaded_true | | apply loaded_session]. intros _.
  eapply hoare_weaken; [done | | apply loaded_session].
  hoare_inv; [apply hoare_set_path; by intros i [Hb Hl] | ..]; apply hoare_open_db.
Qed.

Lemma hoare_loaded_command I c toks cmd :
  hoare (on_interp I) (loaded_command c toks cmd) (on_interp I).
Proof.
  unfold loaded_command, delete_db, table_exists, is_unencrypted, get_header_info, backup.
  hoare_inv.
Qed.

(** Every magic command keeps [session_inv]. *)
Lemma hoare_parse_SQLite_magic c toks :
  hoare (on_interp session_inv) (parse_SQLite_magic c toks) (on_interp session_inv).
Proof.
  unfold parse_SQLite_magic, fetch, ems_sync_db.
  hoare_inv; auto using hoare_load_db, hoare_create_db, hoare_loaded_command.
  apply hoare_set_path. by intros i [Hb Hl].
Qed.

End Magic.
#[export] Hint Resolve hoare_parse_SQLite_magic : xs.

(** ** Behaviour of each command *)

(** The commands [parse_SQLite_magic] runs whatever the session, and the
    ones it runs only on a loaded database. *)
Definition session_free_commands : list string := ["LOAD"; "CREATE"; "SYNC"; "FETCH"; "TEST"].
Definition loaded_commands : list string :=
  ["DELETE"; "TABLE_EXISTS"; "LOAD_EXTENSION"; "SET_KEY"; "REKEY"; "IS_UNENCRYPTED";
 "GET_INFO"; "BACKUP"].

Lemma cmd_is_same cmd a b : cmd_is cmd a = true -> cmd_is cmd b = cmd_is a b.
Proof.
  unfold cmd_is, case_insentive_equals. intros Ha. apply String.eqb_eq in Ha. by rewrite Ha.
Qed.

(** Decide the comparisons of two literal command names. *)
Ltac eval_cmd_is :=
  repeat match goal with
  | |- context [cmd_is ?a ?b] =>
    let v := eval vm_compute in (cmd_is a b) in
    match v with
    | true => change (cmd_is a b) with true
    | false => change (cmd_is a b) with false
    end
  end.

(** Replace a token known to spell command [a] by [a] itself. *)
Ltac cmd_as H :=
  match type of H with
  | cmd_is ?cmd ?a = true =>
    repeat match goal with
           | |- context [cmd_is cmd ?b] => rewrite (cmd_is_same cmd a b H)
           end
  end.

(** Use a hypothesis that a token is none of a list of names. *)
Ltac not_cmds H :=
  cbn [forallb session_free_commands loaded_commands app] in H;
  rewrite ?andb_true_iff, ?negb_true_iff in H; destruct_and? H;
  repeat match goal with
       | Heq : cmd_is ?c ?n = false |- context [cmd_is ?c ?n] => rewrite Heq
       end.

(** Run the dispatcher on a symbolic world. *)
Ltac run_magic :=
  unfold parse_SQLite_magic, loaded_command; xs_unfold;
  cbn -[cmd_is memory_path]; eval_cmd_is; cbn -[memory_path].

Section Commands.
Context `{SQLiteCpp} `{Renderers}.

(** C3: before a database is loaded, every command other than [LOAD],
    [CREATE], [SYNC], [FETCH] and [TEST] fails with "Load a database to
    run this command." and changes nothing. *)
Theorem magic_requires_loaded c cmd args (w : world) :
  m_bd_is_loaded (w_interp w) = false ->
  forallb (fun n => negb (cmd_is cmd n)) session_free_commands = true ->
  parse_SQLite_magic c (cmd :: args) w = Exc "Load a database to run this command." w.
Proof. intros Hl Hn. run_magic. not_cmds Hn. cbn. by rewrite Hl. Qed.

(** C10: once a database is loaded, a command the dispatcher does not
    know is silently ignored: the world is left as it was. *)
Theorem magic_unknown_noop c cmd args (w : world) :
  m_bd_is_loaded (w_interp w) = true ->
  forallb (fun n => negb (cmd_is cmd n)) (session_free_commands ++ loaded_commands) = true ->
  parse_SQLite_magic c (cmd :: args) w = Ret tt w.
Proof. intros Hl Hn. run_magic. not_cmds Hn. cbn. by rewrite Hl. Qed.

(** C11: [DELETE] on a loaded database removes the backing file (not for
    [:memory:]) or fails with "Error deleting file." when it is missing,
    and in every case leaves the session fields as they were: the
    database stays loaded and open. *)
Theorem delete_keeps_session_open c cmd args (w : world) :
  cmd_is cmd "DELETE" = true ->
  m_bd_is_loaded (w_interp w) = true ->
  let path := m_db_path (w_interp w) in
  match parse_SQLite_magic c (cmd :: args) w with
  | Ret _ w' =>
    w_interp w' = w_interp w /\ w_out w' = w_out w /\ w_engine w' = w_engine w /\
    w_files w' = (if bool_decide (path = memory_path) then w_files w
                  else w_files w ∖ {[path]})
  | Exc msg w' => msg = "Error deleting file." /\ w' = w /\ path ∉ w_files w
  | UB _ => False
  end.
Proof.
  intros Hc Hl path. run_magic. cmd_as Hc. eval_cmd_is. cbn. rewrite Hl.
  unfold delete_db, std_remove. xs_unfold. cbn -[memory_path]. fold path.
  case_bool_decide; [done|]. case_bool_decide; cbn; [done | by destruct w].
Qed.

(** C15: [%CREATE path], the form the specification documents, reads the
    path from the third token, which does not exist: the access is out
    of range (undefined behaviour). *)
Theorem create_two_tokens_undefined c cmd p (w : world) :
  cmd_is cmd "CREATE" = true ->
  parse_SQLite_magic c [cmd; p] w = UB "std::vector::operator[] out of range".
Proof. intros Hc. run_magic. cmd_as Hc. eval_cmd_is. reflexivity. Qed.

(** The world after [create_db] set the flag and the path and created
    the file. *)
Definition created_world (w : world) (p : string) (db : option handle) (e : estate) : world :=
  {| w_interp := {| m_db := db; m_backup_db := m_backup_db (w_interp w);
                  m_bd_is_loaded := true; m_db_path := p |};
   w_files := {[p]} ∪ w_files w; w_engine := e; w_out := w_out w |}.

(** C14: [%CREATE x path] creates the file [path] (the second token is
    ignored), then opens it read-write with creation.  When the engine
    opens it the session holds the new handle; when the engine fails,
    the exception leaves the session marked loaded with the previous
    handle, which may be null. *)
Theorem create_db_spec c cmd x p (w : world) :
  cmd_is cmd "CREATE" = true -> p <> memory_path ->
  parse_SQLite_magic c [cmd; x; p] w =
  match db_open (w_engine w) ({[p]} ∪ w_files w) p OPEN_READWRITE_CREATE with
  | Ok (h, e) => Ret tt (created_world w p (Some h) e)
  | Err m => Exc m (created_world w p (m_db (w_interp w)) (w_engine w))
  end.
Proof.
  intros Hc Hp. run_magic. cmd_as Hc. eval_cmd_is. cbn -[memory_path].
  unfold create_db, open_db, set_loaded, set_path, ofstream_create, set_files, set_engine,
  set_db, upd_interp. xs_unfold. cbn -[memory_path].
  rewrite bool_decide_false by done. cbn.
  by destruct (db_open _ _ _ _) as [[h e]|m].
Qed.

(** The world after [LOAD] stored the path. *)
Definition with_path (w : world) (p : string) : world :=
  with_interp w {| m_db := m_db (w_interp w); m_backup_db := m_backup_db (w_interp w);
                 m_bd_is_loaded := m_bd_is_loaded (w_interp w); m_db_path := p |}.

(** C13: [LOAD] of a path that is neither [:memory:] nor an existing
    file fails with "The path doesn't exist.", but only after storing the
    path in [m_db_path]: the session keeps its handle while its path now
    names the missing file. *)
Theorem load_missing_path c cmd p rest (w : world) :
  cmd_is cmd "LOAD" = true -> p <> memory_path -> p ∉ w_files w ->
  parse_SQLite_magic c (cmd :: p :: rest) w = Exc "The path doesn't exist." (with_path w p).
Proof.
  intros Hc Hp Hf. run_magic. cmd_as Hc. eval_cmd_is. cbn -[memory_path].
  rewrite bool_decide_true by done. rewrite bool_decide_false by done. reflexivity.
Qed.



(** C12: for a path without the letter [r], [%LOAD path] and
    [%LOAD path rw] do the same thing. *)
Theorem load_default_equiv_rw c cmd p (w : world) :
  cmd_is cmd "LOAD" = true -> str_contains "r" p = false ->
  parse_SQLite_magic c [cmd; p] w = parse_SQLite_magic c [cmd; p; "rw"] w.
Proof.
  intros Hc Hr.
  assert (Hrw : str_contains "rw" p = false).
  { destruct (str_contains "rw" p) eqn:E; [|done].
  rewrite <- Hr. symmetry. by apply (str_contains_app_l "r" "w"). }
  run_magic. cmd_as Hc. eval_cmd_is. cbn -[memory_path].
  unfold load_db, vec_back. xs_unfold. cbn -[memory_path]. by rewrite Hrw, Hr.
Qed.

(** The world after a result was published. *)
Definition with_output (w : world) (m : message) : world :=
  {| w_interp := w_interp w; w_files := w_files w; w_engine := w_engine w;
   w_out := w_out w ++ [m] |}.

(** C16: [TABLE_EXISTS name] on an open database publishes, under
    [text/plain], "The table name exists." or "The table name doesn't
    exist." as the engine answers, and changes nothing else. *)
Theorem table_exists_spec c cmd name h b (w : world) :
  cmd_is cmd "TABLE_EXISTS" = true -> m_bd_is_loaded (w_interp w) = true ->
  m_db (w_interp w) = Some h -> tableExists (w_engine w) h name = Ok b ->
  parse_SQLite_magic c [cmd; name] w =
  Ret tt (with_output w (ExecuteResult c (MimeBundle (text_plain
    ("The table " ++ name ++ (if b then " exists." else " doesn't exist.")))))).
Proof.
  intros Hc Hl Hd Ht. run_magic. cmd_as Hc. eval_cmd_is. cbn -[memory_path].
  rewrite Hl. unfold table_exists, deref_db, engine_call, publish_execution_result, emit.
  xs_unfold. cbn. rewrite Hd. cbn. rewrite Ht. by destruct b.
Qed.

(** C20: a loaded session whose handle is null (what a failed open
    leaves, see C14) makes [TABLE_EXISTS] dereference a null pointer. *)
Theorem table_exists_null_handle c cmd name (w : world) :
  cmd_is cmd "TABLE_EXISTS" = true -> m_bd_is_loaded (w_interp w) = true ->
  m_db (w_interp w) = None ->
  parse_SQLite_magic c [cmd; name] w = UB "null SQLite::Database dereferenced".
Proof.
  intros Hc Hl Hd. run_magic. cmd_as Hc. eval_cmd_is. cbn -[memory_path].
  rewrite Hl. unfold table_exists, deref_db. xs_unfold. cbn. by rewrite Hd.
Qed.

(** [BACKUP t] on a loaded session: the guard of [backup], then the
    dereference of [m_backup_db]. *)
Lemma backup_command c cmd t (w : world) :
  cmd_is cmd "BACKUP" = true -> m_bd_is_loaded (w_interp w) = true ->
  m_backup_db (w_interp w) = None ->
  parse_SQLite_magic c [cmd; t] w =
  if ((1 <? String.length t)%nat && (char_to_int (first_char t) <=? 1)%Z)
  then Exc "This is not a valid backup type." w
  else UB "null SQLite::Database dereferenced".
Proof.
  intros Hc Hl Hb. run_magic. cmd_as Hc. eval_cmd_is. cbn -[memory_path].
  rewrite Hl. unfold backup, deref_backup_db. xs_unfold.
  destruct (_ && _); cbn; [done | by rewrite Hb].
Qed.
End Commands.

(** ** Witnesses on the executable engine *)
Section Witnesses.
Import ToyEngine ToyWorld.

Definition files_ab : gset string := {["a.db"; "/root/our.db"]}.

Lemma magic_requires_loaded_witness :
  parse_SQLite_magic 1 ["delete"] (world0 files_ab engine0) =
  Exc "Load a database to run this command." (world0 files_ab engine0).
Proof. apply magic_requires_loaded; reflexivity. Defined.

Lemma magic_unknown_noop_witness :
  parse_SQLite_magic 1 ["XVEGA_PLOT"; "<>"] (open_world "a.db" OPEN_READWRITE files_ab engine0) =
  Ret tt (open_world "a.db" OPEN_READWRITE files_ab engine0).
Proof. apply magic_unknown_noop; reflexivity. Defined.

Lemma delete_keeps_session_open_witness :
  match parse_SQLite_magic 1 ["Delete"] (open_world "a.db" OPEN_READWRITE files_ab engine0) with
  | Ret _ w' =>
    w_interp w' = w_interp (open_world "a.db" OPEN_READWRITE files_ab engine0) /\
    w_out w' = [] /\ w_engine w' = engine0 /\ w_files w' = files_ab ∖ {["a.db"]}
  | Exc msg w' => msg = "Error deleting file." /\
    w' = open_world "a.db" OPEN_READWRITE files_ab engine0 /\ "a.db" ∉ files_ab
  | UB _ => False
  end.
Proof. apply (delete_keeps_session_open 1 "Delete" []); reflexivity. Defined.

Lemma create_two_tokens_undefined_witness :
  parse_SQLite_magic 1 ["CREATE"; "test.db"] (world0 files_ab engine0) =
  UB "std::vector::operator[] out of range".
Proof. apply create_two_tokens_undefined; reflexivity. Defined.

Lemma create_db_spec_witness :
  parse_SQLite_magic 1 ["create"; "db"; "test.db"] (world0 files_ab engine0) =
  Ret tt (created_world (world0 files_ab engine0) "test.db"
            (Some {| h_path := "test.db"; h_mode := OPEN_READWRITE_CREATE |}) engine0).
Proof. rewrite create_db_spec; [reflexivity | reflexivity | discriminate]. Defined.

Lemma load_missing_path_witness :
  parse_SQLite_magic 1 ["LOAD"; "b.db"] (world0 files_ab engine0) =
  Exc "The path doesn't exist." (with_path (world0 files_ab engine0) "b.db").
Proof.
  apply load_missing_path; [reflexivity | discriminate |].
  apply (bool_decide_unpack _). vm_compute. reflexivity.
Defined.


Lemma load_default_equiv_rw_witness :
  parse_SQLite_magic 1 ["LOAD"; "a.db"] (world0 files_ab engine0) =
  parse_SQLite_magic 1 ["LOAD"; "a.db"; "rw"] (world0 files_ab engine0).
Proof. apply load_default_equiv_rw; reflexivity. Defined.

Definition engine_foo : tstate :=
  {| t_tables := {[ "a.db" := {["foo"]} ]}; t_answers := ∅; t_locked := ∅ |}.

Lemma table_exists_spec_witness :
  parse_SQLite_magic 7 ["TABLE_EXISTS"; "foo"] (open_world "a.db" OPEN_READWRITE files_ab engine_foo) =
  Ret tt (with_output (open_world "a.db" OPEN_READWRITE files_ab engine_foo)
    (ExecuteResult 7 (MimeBundle (text_plain ("The table foo" ++ " exists."))))).
Proof.
  apply (@table_exists_spec toy_sqlite toy_renderers 7 "TABLE_EXISTS" "foo"
         {| h_path := "a.db"; h_mode := OPEN_READWRITE |} true); reflexivity.
Defined.

Definition loaded_no_handle : world :=
  {| w_interp := {| m_db := None; m_backup_db := None; m_bd_is_loaded := true;
                  m_db_path := "a.db" |};
   w_files := files_ab; w_engine := engine0; w_out := [] |}.

Lemma table_exists_null_handle_witness :
  parse_SQLite_magic 1 ["TABLE_EXISTS"; "foo"] loaded_no_handle =
  UB "null SQLite::Database dereferenced".
Proof. apply table_exists_null_handle; reflexivity. Defined.
End Witnesses.


End Magic.
