(* ===== verification/Pipeline.v ===== *)
(** * SQL execution: [interpreter::process_SQLite_input]

    The statement is prepared on [*m_db].  When it has columns, one pass
    writes the column names as the header row of the text table, as the
    [<th>] row of the HTML table and as the keys of the data frame (each
    key set to the one-element column [{"name"}]); then every
    [executeStep] appends the row's cells to the three outputs.  The text
    and HTML tables are published together at the end; the frame goes
    back to the caller.  A statement without columns is run with
    [exec()].  This file models that pass and proves that the three
    outputs agree. *)

From S2P Require Import Prelude Engine World.
Open Scope string_scope.

Module Pipeline.
Section Pipeline.
Context `{SQLiteCpp} `{Renderers}.

(** [query.getColumn(col)] as text; SQLiteCpp checks the index. *)
Definition getColumn (cells : list string) (col : nat) : outcome string :=
  match cells !! col with
  | Some c => Ok c
  | None => Err "zero-based index out of range"
  end.

(** One iteration of the header loop: [col_names.push_back(name)],
    [html_table << "<th>" << name << "</th>\n"], [xv_sqlite_df[name] =
    {"name"}]. *)
Definition header_cell (acc : list string * string * df_type) (name : string)
  : list string * string * df_type :=
  let '(col_names, html, df) := acc in
  ((col_names ++ [name])%list, html ++ "<th>" ++ name ++ "</th>" ++ nl,
 <[name := ["name"]]> df).

(** One iteration of the cell loop for column index [col] (smaller than
    the column count, so [getColumnName(col)] is defined): the cell goes
    to the row, to a [<td>] and to the end of the frame column
    ([operator[]] makes an empty column for a new key). *)
Definition row_cell (cols cells : list string) (acc : list string * string * df_type)
  (col : nat) : outcome (list string * string * df_type) :=
  let '(row, html, df) := acc in
  let col_name := default EmptyString (cols !! col) in
  match getColumn cells col with
  | Err m => Err m
  | Ok cell =>
    Ok ((row ++ [cell])%list, html ++ "<td>" ++ cell ++ "</td>" ++ nl,
        <[col_name := (default [] (df !! col_name) ++ [cell])%list]> df)
  end.

(** [while (query.executeStep()) { ... }]: [plain] holds the rows added
    to the text table. *)
Fixpoint step_rows (cols : list string) (r : stepping estate) (plain : list (list string))
  (html : string) (df : df_type) : outcome (list (list string) * string * df_type * estate) :=
  match r with
  | SDone e => Ok (plain, html, df, e)
  | SFail m => Err m
  | SRow cells rest =>
    match fold_outcome (row_cell cols cells) (seq 0 (length cols)) ([], html ++ "<tr>" ++ nl, df) with
    | Err m => Err m
    | Ok (row, html', df') =>
        step_rows cols rest (plain ++ [row])%list (html' ++ "</tr>" ++ nl) df'
    end
  end.

(** [query.exec()] on a statement without result columns. *)
Definition exec_stmt (r : stepping estate) : outcome estate :=
  match r with
  | SDone e => Ok e
  | SRow _ _ => Err "exec() does not expect results. Use executeStep."
  | SFail m => Err m
  end.

Definition mime_bundle (plain html : string) : gmap string string :=
  <["text/plain" := plain]> (<["text/html" := html]> ∅).

Definition process_SQLite_input (execution_counter : Z) (code : string) (xv_sqlite_df : df_type)
    : K df_type :=
  h <- deref_db ;;
  query <- engine_call (fun e => prepare e h code) ;;
  let cols := st_columns query in
  if negb (length cols =? 0)%nat then
    let '(col_names, html, df) :=
      fold_left header_cell cols ([], "<table>" ++ nl ++ "<tr>" ++ nl, xv_sqlite_df) in
    res <- lift (step_rows cols (st_run query) [col_names] (html ++ "</tr>" ++ nl) df) ;;
    let '(plain, html', df', e) := res in
    set_engine e ;;
    publish_execution_result execution_counter
      (MimeBundle (mime_bundle (table_str plain) (html' ++ "</table>"))) ;;
    ret df'
  else
    e <- lift (exec_stmt (st_run query)) ;;
    set_engine e ;;
    ret xv_sqlite_df.

(** ** The three outputs, declaratively *)

Definition th (name : string) : string := "<th>" ++ name ++ "</th>" ++ nl.
Definition td (cell : string) : string := "<td>" ++ cell ++ "</td>" ++ nl.
Definition html_row (cells : list string) : string :=
  "<tr>" ++ nl ++ strcat (map td cells) ++ "</tr>" ++ nl.

(** The HTML table of a result: one [<th>] row, then one [<tr>] per row. *)
Definition html_table (cols : list string) (rows : list (list string)) : string :=
  "<table>" ++ nl ++ "<tr>" ++ nl ++ strcat (map th cols) ++ "</tr>" ++ nl ++
  strcat (map html_row rows) ++ "</table>".

(** [xv_sqlite_df[name].push_back(cell)]. *)
Definition push_cell (d : df_type) (nc : string * string) : df_type :=
  <[nc.1 := (default [] (d !! nc.1) ++ [nc.2])%list]> d.

Definition push_row (cols : list string) (d : df_type) (cells : list string) : df_type :=
  fold_left push_cell (zip cols cells) d.

Definition frame_header (cols : list string) (d : df_type) : df_type :=
  fold_left (fun d n => <[n := ["name"]]> d) cols d.

(** ** The loops *)

Lemma header_loop (cols names : list string) (html : string) (d : df_type) :
  fold_left header_cell cols (names, html, d) =
  ((names ++ cols)%list, html ++ strcat (map th cols), frame_header cols d).
Proof.
  unfold frame_header. revert names html d.
  induction cols as [|n cols IH]; intros names html d; simpl.
  - by rewrite app_nil_r, string_app_nil_r.
  - rewrite IH, <- app_assoc. unfold th. by autorewrite with xs_rw.
Qed.

Lemma row_loop_from (cols cells : list string) (k m : nat) (row : list string) (html : string)
  (d : df_type) :
  length cells = length cols -> k + m = length cols ->
  fold_outcome (row_cell cols cells) (seq k m) (row, html, d) =
  Ok ((row ++ drop k cells)%list, html ++ strcat (map td (drop k cells)),
    fold_left push_cell (drop k (zip cols cells)) d).
Proof.
  intros Hlen. revert k row html d.
  induction m as [|m IH]; intros k row html d Hk; simpl.
  - rewrite !drop_ge by (rewrite ?length_zip_with; lia). simpl.
  by rewrite app_nil_r, string_app_nil_r.
  - destruct (lookup_lt_is_Some_2 cols k ltac:(lia)) as [n Hn].
  destruct (lookup_lt_is_Some_2 cells k ltac:(lia)) as [c Hc].
  unfold row_cell, getColumn. rewrite Hn, Hc. simpl.
  rewrite IH by lia.
  rewrite (drop_S cells c k Hc), (drop_S (zip cols cells) (n, c) k)
  by (rewrite lookup_zip_with, Hn, Hc; done).
  simpl. rewrite <- app_assoc. unfold td. by autorewrite with xs_rw.
Qed.

Lemma row_loop (cols cells : list string) (html : string) (d : df_type) :
  length cells = length cols ->
  fold_outcome (row_cell cols cells) (seq 0 (length cols)) ([], html, d) =
  Ok (cells, html ++ strcat (map td cells), push_row cols d cells).
Proof. intros Hlen. by rewrite (row_loop_from cols cells 0 (length cols)) by lia. Qed.

Lemma step_rows_ok (cols : list string) (r : stepping estate) plain html d e :
  Forall (fun row => length row = length cols) (rows_of r) -> run_end r = Ok e ->
  step_rows cols r plain html d =
  Ok ((plain ++ rows_of r)%list, html ++ strcat (map html_row (rows_of r)),
    fold_left (push_row cols) (rows_of r) d, e).
Proof.
  revert plain html d. induction r as [e'|cells rest IH|m]; intros plain html d Hrows Hend;
  simpl in *; [|inversion Hrows; subst; rewrite row_loop by done; rewrite IH by done|done].
  - injection Hend as ->. by rewrite app_nil_r, string_app_nil_r.
  - rewrite <- app_assoc. unfold html_row. by autorewrite with xs_rw.
Qed.

(** ** The frame *)

Lemma frame_header_lookup (cols : list string) (d : df_type) (name : string) :
  frame_header cols d !! name = if bool_decide (name ∈ cols) then Some ["name"] else d !! name.
Proof.
  unfold frame_header. revert d. induction cols as [|n cols IH]; intros d; cbn [fold_left].
  - rewrite bool_decide_false; [done | apply not_elem_of_nil].
  - rewrite IH. destruct (decide (name ∈ cols)) as [Hin|Hin].
  + by rewrite !bool_decide_true by set_solver.
  + rewrite (bool_decide_false (name ∈ cols)) by done.
  destruct (decide (name = n)) as [->|Hne].
  * by rewrite lookup_insert_eq, bool_decide_true by set_solver.
  * by rewrite lookup_insert_ne, bool_decide_false by set_solver.
Qed.

Lemma push_row_notin (cols cells : list string) (d : df_type) name :
  name ∉ cols -> push_row cols d cells !! name = d !! name.
Proof.
  unfold push_row. revert cells d.
  induction cols as [|n cols IH]; intros [|c cells] d Hname; simpl; [done..|].
  rewrite IH by set_solver. unfold push_cell. simpl. rewrite lookup_insert_ne; set_solver.
Qed.

Lemma frame_rows_notin (cols : list string) (rows : list (list string)) (d : df_type) name :
  name ∉ cols -> fold_left (push_row cols) rows d !! name = d !! name.
Proof.
  intros Hname. revert d. induction rows as [|r rows IH]; intros d; simpl; [done|].
  by rewrite IH, push_row_notin.
Qed.

Lemma push_row_lookup (cols cells : list string) (d : df_type) i name :
  NoDup cols -> length cells = length cols -> cols !! i = Some name ->
  push_row cols d cells !! name = Some (default [] (d !! name) ++ [cells !!! i])%list.
Proof.
  unfold push_row. revert cells d i.
  induction cols as [|n cols IH]; intros [|c cells] d [|i] Hnd Hlen Hi; simpl in *;
  try done; try lia; apply NoDup_cons in Hnd as [Hn Hnd].
  - injection Hi as <-. fold (push_row cols (push_cell d (n, c)) cells).
  rewrite push_row_notin by done. unfold push_cell. simpl. by rewrite lookup_insert_eq.
  - rewrite (IH cells _ i) by (done || lia). unfold push_cell. simpl.
  rewrite lookup_insert_ne; [done|]. intros ->. apply Hn. by eapply list_elem_of_lookup_2.
Qed.

Lemma frame_rows_lookup (cols : list string) (rows : list (list string)) (d : df_type) i name
  col0 :
  NoDup cols -> Forall (fun r => length r = length cols) rows -> cols !! i = Some name ->
  d !! name = Some col0 ->
  fold_left (push_row cols) rows d !! name = Some (col0 ++ map (fun r => r !!! i) rows)%list.
Proof.
  intros Hnd Hrows Hi. revert d col0. induction Hrows as [|r rows Hr Hrows IH]; intros d col0 Hd.
  - by rewrite app_nil_r.
  - cbn [fold_left map]. rewrite (IH _ (col0 ++ [r !!! i])%list); [by rewrite <- app_assoc|].
  rewrite (push_row_lookup cols r d i name) by done. by rewrite Hd.
Qed.

(** ** Specification of [process_SQLite_input] *)

(** C1: for a statement with columns whose rows all have one cell per
column and which runs to completion, the pipeline publishes, in one
message, the text table whose rows are the column names followed by
the result rows, and the HTML table of the same names and rows; the
engine state becomes the one the statement leaves, the session and
the files are unchanged.  With distinct column names, the frame column
of the [i]-th name is ["name"] followed by the [i]-th cell of every row,
in row order; keys that are not column names are untouched. *)
Theorem process_select_spec c code (df : df_type) h q e (w : world) :
  m_db (w_interp w) = Some h ->
  prepare (w_engine w) h code = Ok q ->
  st_columns q <> [] ->
  Forall (fun r => length r = length (st_columns q)) (rows_of (st_run q)) ->
  run_end (st_run q) = Ok e ->
  exists df',
    process_SQLite_input c code df w =
      Ret df' {| w_interp := w_interp w; w_files := w_files w; w_engine := e;
                 w_out := w_out w ++ [ExecuteResult c (MimeBundle
                   (<["text/plain" := table_str (st_columns q :: rows_of (st_run q))]>
                    (<["text/html" := html_table (st_columns q) (rows_of (st_run q))]> ∅)))] |} /\
    (NoDup (st_columns q) -> forall i name, st_columns q !! i = Some name ->
       df' !! name = Some ("name" :: map (fun r => r !!! i) (rows_of (st_run q)))) /\
    (forall name, name ∉ st_columns q -> df' !! name = df !! name).
Proof.
  intros Hdb Hprep Hcols Hrows Hend.
  exists (fold_left (push_row (st_columns q)) (rows_of (st_run q)) (frame_header (st_columns q) df)).
  split; [|split].
  - unfold process_SQLite_input, deref_db, engine_call, set_engine, publish_execution_result, emit.
  xs_unfold. cbn -[fold_left step_rows]. rewrite Hdb. cbn -[fold_left step_rows].
  rewrite Hprep. cbn -[fold_left step_rows].
  destruct (st_columns q) as [|c0 cs] eqn:Hc; [done|]. cbn -[fold_left step_rows].
  rewrite <- Hc in *. rewrite header_loop, (step_rows_ok _ _ _ _ _ e) by done. cbn.
  do 4 f_equal. unfold html_table. by autorewrite with xs_rw.
  - intros Hnd i name Hi.
  rewrite (frame_rows_lookup _ _ _ i name ["name"]); [done..|].
  rewrite frame_header_lookup, bool_decide_true; [done|]. by eapply list_elem_of_lookup_2.
  - intros name Hname. by rewrite frame_rows_notin, frame_header_lookup, bool_decide_false.
Qed.

Lemma step_rows_fail (cols : list string) (r : stepping estate) plain html d m :
  Forall (fun row => length row = length cols) (rows_of r) -> run_end r = Err m ->
  step_rows cols r plain html d = Err m.
Proof.
  revert plain html d. induction r as [e'|cells rest IH|m']; intros plain html d Hrows Hend;
  simpl in *; [discriminate | | congruence].
  inversion Hrows; subst. rewrite row_loop by done. by apply IH.
Qed.

(** C2: when the engine fails, either when it prepares the statement or
at any step of the result, the pipeline throws the engine's message
and the world is left as it was: no partial table is published. *)
Theorem process_engine_failure c code (df : df_type) h (w : world) m :
  m_db (w_interp w) = Some h ->
  (prepare (w_engine w) h code = Err m \/
  exists q, prepare (w_engine w) h code = Ok q /\ st_columns q <> [] /\
 Forall (fun r => length r = length (st_columns q)) (rows_of (st_run q)) /\
 run_end (st_run q) = Err m) ->
  process_SQLite_input c code df w = Exc m w.
Proof.
  intros Hdb Hfail. unfold process_SQLite_input, deref_db, engine_call.
  xs_unfold. cbn -[fold_left step_rows]. rewrite Hdb. cbn -[fold_left step_rows].
  destruct Hfail as [Hp | (q & Hp & Hcols & Hrows & Hend)]; rewrite Hp; [done|].
  cbn -[fold_left step_rows].
  destruct (st_columns q) as [|c0 cs] eqn:Hc; [done|]. cbn -[fold_left step_rows].
  rewrite <- Hc in *. rewrite header_loop, (step_rows_fail _ _ _ _ _ m) by done. done.
Qed.

(** C18: a statement without result columns is run with [exec()]: the
frame is returned unchanged and nothing is published; the engine state
is the one the statement leaves, and a statement that produces a row
or fails makes [exec()] throw. *)
Theorem process_no_columns c code (df : df_type) h q (w : world) :
  m_db (w_interp w) = Some h -> prepare (w_engine w) h code = Ok q -> st_columns q = [] ->
  process_SQLite_input c code df w =
  match st_run q with
  | SDone e => Ret df {| w_interp := w_interp w; w_files := w_files w; w_engine := e;
                       w_out := w_out w |}
  | SRow _ _ => Exc "exec() does not expect results. Use executeStep." w
  | SFail m => Exc m w
  end.
Proof.
  intros Hdb Hp Hc. unfold process_SQLite_input, deref_db, engine_call, set_engine.
  xs_unfold. cbn -[fold_left step_rows]. rewrite Hdb. cbn -[fold_left step_rows].
  rewrite Hp. cbn -[fold_left step_rows]. rewrite Hc. cbn. by destruct (st_run q).
Qed.

(** C19: with a null [m_db] (no database loaded) a SQL cell dereferences
the null pointer: the specification expects an error "load a database
first", the code has undefined behaviour. *)
Theorem process_null_db c code (df : df_type) (w : world) :
  m_db (w_interp w) = None ->
  process_SQLite_input c code df w = UB "null SQLite::Database dereferenced".
Proof. intros Hdb. unfold process_SQLite_input, deref_db. xs_unfold. cbn. by rewrite Hdb. Qed.

(** The pipeline never touches the session fields. *)
Lemma hoare_process_SQLite_input I c code (df : df_type) :
  hoare (on_interp I) (process_SQLite_input c code df) (on_interp I).
Proof. unfold process_SQLite_input. hoare_inv. Qed.

End Pipeline.
#[export] Hint Resolve hoare_process_SQLite_input : xs.
(** ** Witnesses on the executable engine *)
Section Witnesses.
Import ToyEngine ToyWorld.

Definition st_ab : statement unit :=
  {| st_columns := ["a"; "b"]; st_run := SRow ["1"; "x"] (SRow ["2"; "y"] (SDone tt)) |}.
Definition st_dup : statement unit :=
  {| st_columns := ["a"; "a"]; st_run := SRow ["1"; "2"] (SRow ["3"; "4"] (SDone tt)) |}.
Definition st_ddl : statement unit := {| st_columns := []; st_run := SDone tt |}.

Definition engine_ab : tstate :=
  {| t_tables := ∅;
   t_answers := <["SELECT a, b FROM t" := st_ab]> (<["SELECT x AS a, y AS a FROM t" := st_dup]>
                 (<["CREATE TABLE t (a, b)" := st_ddl]> ∅));
   t_locked := ∅ |}.
Definition h_ab : thandle := {| h_path := "a.db"; h_mode := OPEN_READWRITE |}.
Definition world_ab : world := open_world "a.db" OPEN_READWRITE {["a.db"]} engine_ab.
Definition q_ab : statement tstate := to_state engine_ab st_ab.

Lemma process_select_spec_witness :
  exists df',
  process_SQLite_input 1 "SELECT a, b FROM t" ∅ world_ab =
    Ret df' {| w_interp := w_interp world_ab; w_files := w_files world_ab;
               w_engine := engine_ab;
               w_out := w_out world_ab ++ [ExecuteResult 1 (MimeBundle
                 (<["text/plain" := table_str (st_columns q_ab :: rows_of (st_run q_ab))]>
                  (<["text/html" := html_table (st_columns q_ab) (rows_of (st_run q_ab))]> ∅)))] |} /\
  (NoDup (st_columns q_ab) -> forall i name, st_columns q_ab !! i = Some name ->
     df' !! name = Some ("name" :: map (fun r => r !!! i) (rows_of (st_run q_ab)))) /\
  (forall name, name ∉ st_columns q_ab -> df' !! name = (∅ : df_type) !! name).
Proof.
  apply (@process_select_spec toy_sqlite toy_renderers 1 "SELECT a, b FROM t" ∅ h_ab q_ab
         engine_ab world_ab); try reflexivity; [discriminate | repeat constructor].
Defined.

Lemma process_engine_failure_witness :
  process_SQLite_input 1 "SELEC a FROM t" ∅ world_ab = Exc "syntax error" world_ab.
Proof. apply (@process_engine_failure toy_sqlite toy_renderers 1 _ ∅ h_ab); auto. Defined.

Lemma process_no_columns_witness :
  process_SQLite_input 1 "CREATE TABLE t (a, b)" ∅ world_ab = Ret ∅ world_ab.
Proof.
  rewrite (@process_no_columns toy_sqlite toy_renderers 1 _ ∅ h_ab (to_state engine_ab st_ddl));
  reflexivity.
Defined.

Lemma process_null_db_witness :
  process_SQLite_input 1 "SELECT 1" ∅ (world0 ∅ engine_ab) = UB "null SQLite::Database dereferenced".
Proof. apply process_null_db. reflexivity. Defined.

End Witnesses.

End Pipeline.
