(* ===== verification/Orchestrator.v ===== *)
(** * Requests: [interpreter::execute_request_impl]

    A cell is sanitised and tokenised.  A magic cell (first token starting
    with [%]) loses its [%] and goes to [parse_SQLite_magic]; if it is the
    chart command, the remaining tokens are split into chart options and
    SQL tokens, the SQL tokens are joined again (each preceded by a space)
    and run by [process_SQLite_input], and the frame it fills is turned
    into a chart that is published.  Any other cell is run as SQL, as
    typed.  A [std::runtime_error] thrown anywhere is caught: the error is
    published with the one-line traceback ["Error: " ++ message] and the
    reply is an error reply.  This file models the request and the
    sessions that sequences of requests reach. *)

From S2P Require Import Prelude Engine World Tokenizer Magic Pipeline.
Import Tokenizer Magic Pipeline.
Open Scope string_scope.

Module Orchestrator.
Section Orchestrator.
Context `{SQLiteCpp} `{Renderers}.

(** The JSON reply: [{"status": "ok", ...}] or [{"status": "error",
    "ename": ..., "evalue": ...}]. *)
Inductive reply :=
| Reply_ok
| Reply_error (ename evalue : string).

(** [tokenized_input[0].erase(0, 1)]. *)
Definition erase_sigil (tokens : list string) : list string :=
  match tokens with
  | String _ t :: ts => t :: ts
  | ts => ts
  end.

(** The SQL text of a chart cell: [stringfied_sqlite_input << " " << t]
    for every SQL token [t]. *)
Definition stringify (sqlite_input : list string) : string :=
  strcat (map (fun t => " " ++ t) sqlite_input).

(** The [try] block of a magic cell, from the removal of [%] on. *)
Definition run_magic_cell (execution_counter : Z) (tokenized_input : list string) : K unit :=
  let tokens := erase_sigil tokenized_input in
  parse_SQLite_magic execution_counter tokens ;;
  if is_xvega tokens then
    let '(xvega_input, sqlite_input) := split_xv_sqlite_input (tail tokens) in
    df <- process_SQLite_input execution_counter (stringify sqlite_input) ∅ ;;
    chart <- lift (process_xvega_input xvega_input df) ;;
    publish_execution_result execution_counter (ChartJson chart)
  else ret tt.

(** The work of the [try] block: a magic cell, or the cell's text run as
    SQL. *)
Definition request_body (execution_counter : Z) (code : string) : K unit :=
  let tokenized_input := tokenizer (sanitize_string code) in
  if is_magic tokenized_input then run_magic_cell execution_counter tokenized_input
  else _ <- process_SQLite_input execution_counter code ∅ ;; ret tt.

Definition execute_request_impl (execution_counter : Z) (code : string) : K reply :=
  try_catch
    (request_body execution_counter code ;; ret Reply_ok)
  (fun err =>
     publish_execution_error "Error" err ["Error: " ++ err] ;;
     ret (Reply_error "Error" err)).

(** A session as a sequence of [execute_request] messages, handled one
    after the other. *)
Fixpoint run_requests (reqs : list (Z * string)) : K (list reply) :=
  match reqs with
  | [] => ret []
  | (c, code) :: rest =>
    r <- execute_request_impl c code ;;
    rs <- run_requests rest ;;
    ret (r :: rs)
  end.

(** The worlds a session reaches: the interpreter as constructed, then
    any sequence of requests that return. *)
Inductive reachable : world -> Prop :=
  | reach_init w : w_interp w = interp0 -> reachable w
  | reach_step w c code r w' :
  reachable w -> execute_request_impl c code w = Ret r w' -> reachable w'.

(** The world after the catch block published the error. *)
Definition with_error (w : world) (msg : string) : world :=
  {| w_interp := w_interp w; w_files := w_files w; w_engine := w_engine w;
   w_out := w_out w ++ [ExecuteError "Error" msg ["Error: " ++ msg]] |}.

(** The [try]/[catch] of a request. *)
Lemma execute_request_cases c code (w : world) :
  execute_request_impl c code w =
  match request_body c code w with
  | Ret _ w' => Ret Reply_ok w'
  | Exc msg w' => Ret (Reply_error "Error" msg) (with_error w' msg)
  | UB u => UB u
  end.
Proof.
  unfold execute_request_impl, try_catch, publish_execution_error, emit. xs_unfold.
  by destruct (request_body c code w).
Qed.

(** C5: a request never lets an exception escape.  An ok reply means the
    work of the cell returned; an error reply always has the name "Error"
    and the exception's message, comes from a throw of the cell's work,
    and is published last with the one-line traceback
    ["Error: " ++ message], the effects done before the throw being
    kept. *)
Theorem execute_envelope c code (w : world) :
  match execute_request_impl c code w with
  | Ret Reply_ok w' => exists u, request_body c code w = Ret u w'
  | Ret (Reply_error en ev) w' =>
    en = "Error" /\ exists w1, request_body c code w = Exc ev w1 /\ w' = with_error w1 ev
  | Exc _ _ => False
  | UB u => request_body c code w = UB u
  end.
Proof.
  rewrite execute_request_cases.
  destruct (request_body c code w) as [u w'|m w'|u]; eauto.
Qed.

(** C8: when the magic command of a cell fails, the request stops
    there: neither SQL nor a chart runs, and the reply is the error. *)
Theorem magic_failure_stops c code (w w1 : world) msg :
  is_magic (tokenizer (sanitize_string code)) = true ->
  parse_SQLite_magic c (erase_sigil (tokenizer (sanitize_string code))) w = Exc msg w1 ->
  execute_request_impl c code w = Ret (Reply_error "Error" msg) (with_error w1 msg).
Proof.
  intros Hm Hp. rewrite execute_request_cases. unfold request_body, run_magic_cell.
  rewrite Hm. xs_unfold. by rewrite Hp.
Qed.

(** C9: a cell that is not magic is run as SQL exactly as typed (not
    the sanitised or tokenised text), with a fresh frame. *)
Theorem non_magic_runs_raw_code c code (w : world) :
  is_magic (tokenizer (sanitize_string code)) = false ->
  execute_request_impl c code w =
  match process_SQLite_input c code ∅ w with
  | Ret _ w' => Ret Reply_ok w'
  | Exc msg w' => Ret (Reply_error "Error" msg) (with_error w' msg)
  | UB u => UB u
  end.
Proof.
  intros Hm. rewrite execute_request_cases. unfold request_body. rewrite Hm. xs_unfold.
  by destruct (process_SQLite_input c code ∅ w).
Qed.

Lemma hoare_execute_request_impl c code :
  hoare (on_interp session_inv) (execute_request_impl c code) (on_interp session_inv).
Proof.
  unfold execute_request_impl, request_body, run_magic_cell.
  apply hoare_try_catch; [hoare_inv | intros; hoare_inv].
Qed.

(** Rule induction for a property of the session fields that the
    constructed interpreter has and every request keeps. *)
Lemma reachable_invariant (I : interp -> Prop) (w : world) :
  I interp0 -> (forall c code, hoare (on_interp I) (execute_request_impl c code) (on_interp I)) ->
  reachable w -> I (w_interp w).
Proof.
  intros Hinit Hstep. induction 1 as [w Hi | w c code r w' Hr IH Hex].
  - by rewrite Hi.
  - pose proof (Hstep c code w IH) as Hh. by rewrite Hex in Hh.
Qed.

Lemma session_inv_init : session_inv interp0.
Proof. split; [done | by intros [? ?]]. Qed.

(** C6: in every session a sequence of requests reaches, [m_backup_db]
    is null and [m_db] is only set when [m_bd_is_loaded] is. *)
Theorem reachable_session_inv (w : world) :
  reachable w -> session_inv (w_interp w).
Proof. apply reachable_invariant; [apply session_inv_init | apply hoare_execute_request_impl]. Qed.

(** C17: [BACKUP] never succeeds: in a reachable session it either
    rejects the type or dereferences the never-assigned [m_backup_db]. *)
Theorem backup_never_succeeds c cmd t (w : world) :
  reachable w -> cmd_is cmd "BACKUP" = true -> m_bd_is_loaded (w_interp w) = true ->
  parse_SQLite_magic c [cmd; t] w = Exc "This is not a valid backup type." w \/
  parse_SQLite_magic c [cmd; t] w = UB "null SQLite::Database dereferenced".
Proof.
  intros Hr Hc Hl.
  destruct (reachable_invariant session_inv w session_inv_init hoare_execute_request_impl Hr)
  as [Hb _].
  rewrite backup_command by done. destruct (_ && _); auto.
Qed.

Lemma run_requests_reachable reqs (w w' : world) rs :
  reachable w -> run_requests reqs w = Ret rs w' -> reachable w'.
Proof.
  revert w rs. induction reqs as [|[c code] reqs IH]; intros w rs Hr Hrun; simpl in Hrun.
  - by injection Hrun as _ <-.
  - unfold bind in Hrun. destruct (execute_request_impl c code w) as [r w1| |] eqn:Hex;
    [|unfold execute_request_impl, try_catch in Hex; by destruct (_ ;; _)%xs|done].
  destruct (run_requests reqs w1) as [rs' w2| |] eqn:Hrest; try done.
  injection Hrun as _ <-. eapply IH; [|exact Hrest]. by eapply reach_step.
Qed.

End Orchestrator.
(** ** Witnesses and sessions on the executable engine *)
Section Witnesses.
Import ToyEngine ToyWorld.

Lemma magic_failure_stops_witness :
  execute_request_impl 1 "%DELETE" (world0 ∅ engine0) =
  Ret (Reply_error "Error" "Load a database to run this command.")
      (with_error (world0 ∅ engine0) "Load a database to run this command.").
Proof. apply magic_failure_stops; reflexivity. Defined.

Lemma non_magic_runs_raw_code_witness :
  execute_request_impl 1 "SELECT a, b FROM t" world_ab =
  match process_SQLite_input 1 "SELECT a, b FROM t" ∅ world_ab with
  | Ret _ w' => Ret Reply_ok w'
  | Exc msg w' => Ret (Reply_error "Error" msg) (with_error w' msg)
  | UB u => UB u
  end.
Proof. apply non_magic_runs_raw_code. reflexivity. Defined.

Lemma world_ab_reachable : reachable world_ab.
Proof.
  apply (reach_step (world0 {["a.db"]} engine_ab) 1 "%LOAD a.db" Reply_ok);
  [by apply reach_init | vm_compute; reflexivity].
Qed.

Lemma reachable_session_inv_witness : session_inv (w_interp world_ab).
Proof. apply reachable_session_inv, world_ab_reachable. Defined.

Lemma backup_never_succeeds_witness :
  parse_SQLite_magic 1 ["BACKUP"; "x"] world_ab = Exc "This is not a valid backup type." world_ab \/
  parse_SQLite_magic 1 ["BACKUP"; "x"] world_ab = UB "null SQLite::Database dereferenced".
Proof. apply backup_never_succeeds; [apply world_ab_reachable | reflexivity | reflexivity]. Defined.



End Witnesses.

End Orchestrator.
